(** * Avantus Analytics: odds normalisation, caching and best-price comparison

    A shallow embedding of the Python back end:
    - [backend/services/odds_api_service.py]  (module [OddsApiService])
    - [backend/app.py]                        (module [App])
    - [backend/scrapers/base_scraper.py]      (module [BaseScraper])

    Python dictionaries with a fixed set of keys are records, dictionaries
    used as maps are [gmap]s, [None] is [option], and a raised exception is
    the [Raise] constructor of [result]. The payload of The Odds API is
    typed as the API documents it: names, keys and times are strings,
    American prices are integers, points are decimal numbers; every key of
    it can be missing or hold [null]. The clock and the upstream request
    are arguments of the functions that use them. *)

From Stdlib Require Import ZArith QArith Lia Ascii String Floats Uint63.
From stdpp Require Import gmap strings list fin_maps.

Local Open Scope Z_scope.
Local Open Scope string_scope.

(** ** Exceptions and fallible computations *)

Inductive exn : Type :=
| KeyError
| TypeError
| AttributeError
| ValueError
| ZeroDivisionError
| RequestException (msg : string)
| OtherException (msg : string).

Inductive result (A : Type) : Type :=
| Ok (a : A)
| Raise (e : exn).

Arguments Ok {A} a.
Arguments Raise {A} e.

Definition rbind {A B : Type} (r : result A) (k : A -> result B) : result B :=
  match r with
  | Ok a => k a
  | Raise e => Raise e
  end.

#[export] Instance result_ret : MRet result := fun _ a => Ok a.
#[export] Instance result_bind : MBind result := fun _ _ k r => rbind r k.

(** A key of a JSON object as the upstream API delivers it: the key can be
    missing, can hold [null], or can hold a value. *)
Inductive field (A : Type) : Type :=
| Absent
| Null
| Present (a : A).

Arguments Absent {A}.
Arguments Null {A}.
Arguments Present {A} a.

(** [d.get(k)]: [None] for a missing key and for [null]. *)
Definition get {A : Type} (f : field A) : option A :=
  match f with
  | Present a => Some a
  | Absent | Null => None
  end.

(** [d.get(k, [])]: the default only replaces a missing key. *)
Definition get_or_empty {A : Type} (f : field (list A)) : option (list A) :=
  match f with
  | Absent => Some []
  | Null => None
  | Present l => Some l
  end.

(** [d[k]]: a missing key raises [KeyError]. *)
Definition index {A : Type} (f : field A) : result (option A) :=
  match f with
  | Absent => Raise KeyError
  | Null => Ok None
  | Present a => Ok (Some a)
  end.

(** [for x in v]: iterating over [None] raises [TypeError]. *)
Definition iter {A : Type} (v : option (list A)) : result (list A) :=
  match v with
  | Some l => Ok l
  | None => Raise TypeError
  end.

(** ** The odds service: [backend/services/odds_api_service.py] *)

Module OddsApiService.

(** *** Raw payload of The Odds API *)

Record raw_outcome : Type := {
  o_name : field string;
  o_price : field Z;
  o_point : field Q
}.

Record raw_market : Type := {
  m_key : field string;
  m_outcomes : field (list raw_outcome)
}.

Record raw_bookmaker : Type := {
  b_key : field string;
  b_title : field string;
  b_last_update : field string;
  b_markets : field (list raw_market)
}.

Record raw_event : Type := {
  e_id : field string;
  e_sport_key : field string;
  e_commence_time : field string;
  e_home_team : field string;
  e_away_team : field string;
  e_bookmakers : field (list raw_bookmaker)
}.

(** *** Standardised format *)

(** [{'price': ..., 'point': ...}] *)
Record outcome_data : Type := {
  price : option Z;
  point : option Q
}.

(** A parsed market: outcome name to outcome data. *)
Abbreviation market_data := (gmap (option string) outcome_data).

Record book_data : Type := {
  key : option string;
  title : option string;
  last_update : option string;
  markets : gmap (option string) market_data
}.

Record game : Type := {
  id : option string;
  sport : option string;
  commence_time : option string;
  home_team : option string;
  away_team : option string;
  bookmakers : list book_data
}.

Record response : Type := {
  games : list game;
  count : nat;
  timestamp : string
}.

(** The loop shared by the three branches of [_parse_market]:
    [result[outcome['name']] = {'price': ..., 'point': ...}]. *)
Fixpoint parse_outcomes (outcomes : list raw_outcome) (res : market_data)
  : result market_data :=
  match outcomes with
  | [] => Ok res
  | outcome :: rest =>
      name ← index (o_name outcome);
      parse_outcomes rest
        (<[name := {| price := get (o_price outcome);
                      point := get (o_point outcome) |}]> res)
  end.

(** [_parse_market]: the three known market keys run the same loop over
    the outcomes, any other key yields the empty dictionary without
    looking at the outcomes. *)
Definition _parse_market (market : raw_market) : result market_data :=
  let market_key := get (m_key market) in
  let outcomes := get_or_empty (m_outcomes market) in
  if decide (market_key = Some "h2h") then
    l ← iter outcomes; parse_outcomes l ∅
  else if decide (market_key = Some "spreads") then
    l ← iter outcomes; parse_outcomes l ∅
  else if decide (market_key = Some "totals") then
    l ← iter outcomes; parse_outcomes l ∅
  else Ok ∅.

(** [for market in bookmaker.get('markets', [])]:
    [book_data['markets'][market_key] = self._parse_market(market)]. *)
Fixpoint parse_markets (ms : list raw_market)
    (acc : gmap (option string) market_data)
  : result (gmap (option string) market_data) :=
  match ms with
  | [] => Ok acc
  | market :: rest =>
      let market_key := get (m_key market) in
      parsed ← _parse_market market;
      parse_markets rest (<[market_key := parsed]> acc)
  end.

Definition transform_bookmaker (bookmaker : raw_bookmaker) : result book_data :=
  ms ← iter (get_or_empty (b_markets bookmaker));
  mkts ← parse_markets ms ∅;
  Ok {| key := get (b_key bookmaker);
        title := get (b_title bookmaker);
        last_update := get (b_last_update bookmaker);
        markets := mkts |}.

(** [for bookmaker in event.get('bookmakers', [])]:
    [game['bookmakers'].append(book_data)]. *)
Fixpoint transform_bookmakers (bs : list raw_bookmaker) (acc : list book_data)
  : result (list book_data) :=
  match bs with
  | [] => Ok acc
  | bookmaker :: rest =>
      bd ← transform_bookmaker bookmaker;
      transform_bookmakers rest (acc ++ [bd])
  end.

(** The body of the [try] block of [_transform_odds_data] for one event. *)
Definition transform_event (event : raw_event) : result game :=
  bs ← iter (get_or_empty (e_bookmakers event));
  books ← transform_bookmakers bs [];
  Ok {| id := get (e_id event);
        sport := get (e_sport_key event);
        commence_time := get (e_commence_time event);
        home_team := get (e_home_team event);
        away_team := get (e_away_team event);
        bookmakers := books |}.

(** [for event in data: try: ... games.append(game) except Exception: continue] *)
Fixpoint transform_events (data : list raw_event) (games : list game)
  : list game :=
  match data with
  | [] => games
  | event :: rest =>
      match transform_event event with
      | Ok g => transform_events rest (games ++ [g])
      | Raise _ => transform_events rest games
      end
  end.

(** [_transform_odds_data]; [utcnow] is [datetime.utcnow().isoformat()] at
    the time of the call. The [markets] argument is not used by the body. *)
Definition _transform_odds_data (utcnow : string)
    (data : list raw_event) (markets : list string) : response :=
  let games := transform_events data [] in
  {| games := games; count := length games; timestamp := utcnow |}.

(** *** The cache and the fetch operation *)

(** Instants are counted in microseconds, the resolution of [datetime]. *)
Record service : Type := {
  api_key : option string;
  cache : gmap string (response * Z);
  cache_duration : Z
}.

(** [api_key or os.getenv('ODDS_API_KEY')] *)
Definition py_or (a b : option string) : option string :=
  match a with
  | Some s => if decide (s = "") then b else a
  | None => b
  end.

Definition __init__ (api_key env_key : option string) : service :=
  {| api_key := py_or api_key env_key; cache := ∅; cache_duration := 300 |}.

(** [not self.api_key] *)
Definition no_key (self : service) : bool :=
  match api_key self with
  | Some s => bool_decide (s = "")
  | None => true
  end.

Definition _get_cached_data (self : service) (now : Z) (k : string)
  : option response :=
  match cache self !! k with
  | Some (data, stamp) =>
      if (now - stamp <? cache_duration self * 1000000)%Z then Some data else None
  | None => None
  end.

Definition _set_cached_data (self : service) (now : Z) (k : string)
    (data : response) : service :=
  {| api_key := api_key self;
     cache := <[k := (data, now)]> (cache self);
     cache_duration := cache_duration self |}.

(** The query sent upstream. *)
Record request_params : Type := {
  p_apiKey : option string;
  p_regions : string;
  p_markets : string;
  p_oddsFormat : string;
  p_dateFormat : string;
  p_bookmakers : option string
}.

(** What [session.get], [raise_for_status] and [response.json] deliver
    together: the decoded payload, or the exception one of them raised. *)
Inductive upstream_reply : Type :=
| Reply (data : list raw_event)
| Failure (e : exn).

(** The surroundings of one call: the upstream adapter and the clock
    readings of [_get_cached_data], [_transform_odds_data] and
    [_set_cached_data]. *)
Record world : Type := {
  session_get : string -> request_params -> upstream_reply;
  now_lookup : Z;
  utcnow_iso : string;
  now_store : Z
}.

(** [str(e)]: the message of the exception, or its name when it was
    raised without one. *)
Definition str_exn (e : exn) : string :=
  match e with
  | KeyError => "KeyError"
  | TypeError => "TypeError"
  | AttributeError => "AttributeError"
  | ValueError => "ValueError"
  | ZeroDivisionError => "division by zero"
  | RequestException msg => msg
  | OtherException msg => msg
  end.

(** The dictionary [get_nfl_odds] returns: [{'error': ..., 'games': ...}]
    or a transformed response. *)
Inductive odds_result : Type :=
| ErrorResult (error : string) (games : list game)
| OddsResult (r : response).

Definition BASE_URL : string := "https://api.the-odds-api.com/v4".

Definition default_markets (markets : option (list string)) : list string :=
  match markets with
  | Some ms => ms
  | None => ["h2h"; "spreads"; "totals"]
  end.

(** [f"nfl_odds_{','.join(markets)}"] *)
Definition cache_key (markets : list string) : string :=
  "nfl_odds_" +:+ String.concat "," markets.

(** The cache key a call with the given arguments works with. *)
Definition derived_cache_key (markets sportsbooks : option (list string))
    (regions : string) : string :=
  cache_key (default_markets markets).

(** [if sportsbooks: params['bookmakers'] = ','.join(sportsbooks)] *)
Definition bookmakers_param (sportsbooks : option (list string))
  : option string :=
  match sportsbooks with
  | Some (b :: bs) => Some (String.concat "," (b :: bs))
  | Some [] | None => None
  end.

Definition build_params (self : service) (markets : list string)
    (sportsbooks : option (list string)) (regions : string) : request_params :=
  {| p_apiKey := api_key self;
     p_regions := regions;
     p_markets := String.concat "," markets;
     p_oddsFormat := "american";
     p_dateFormat := "iso";
     p_bookmakers := bookmakers_param sportsbooks |}.

(** [f"{self.BASE_URL}/sports/americanfootball_nfl/odds"] *)
Definition odds_url : string := BASE_URL +:+ "/sports/americanfootball_nfl/odds".

(** The body of the [try] block of [get_nfl_odds]. *)
Definition fetch_and_store (self : service) (w : world)
    (markets : list string) (sportsbooks : option (list string))
    (regions : string) (k : string) : result (response * service) :=
  let url := odds_url in
  let params := build_params self markets sportsbooks regions in
  match session_get w url params with
  | Failure e => Raise e
  | Reply data =>
      let res := _transform_odds_data (utcnow_iso w) data markets in
      Ok (res, _set_cached_data self (now_store w) k res)
  end.

Definition get_nfl_odds (self : service) (w : world)
    (markets sportsbooks : option (list string)) (regions : string)
  : odds_result * service :=
  if no_key self then (ErrorResult "No API key configured" [], self)
  else
    let markets := default_markets markets in
    let k := cache_key markets in
    match _get_cached_data self (now_lookup w) k with
    | Some cached => (OddsResult cached, self)
    | None =>
        match fetch_and_store self w markets sportsbooks regions k with
        | Ok (res, self') => (OddsResult res, self')
        | Raise e => (ErrorResult (str_exn e) [], self)
        end
    end.

(** *** Vocabulary and sample data for the statements *)

(** The game of an event that is transformed without an exception. *)
Definition transformed (event : raw_event) : option game :=
  match transform_event event with
  | Ok g => Some g
  | Raise _ => None
  end.

(** The bookmakers of an event as the loop of [_transform_odds_data]
    builds them, before the game is put together. *)
Definition event_bookmakers (event : raw_event) : result (list book_data) :=
  bs ← iter (get_or_empty (e_bookmakers event)); transform_bookmakers bs [].

Fixpoint has_comma (s : string) : bool :=
  match s with
  | EmptyString => false
  | String c rest => bool_decide (c = ","%char) || has_comma rest
  end.

(** What follows the first name in a joined list: nothing, or a comma and
    the rest. *)
Definition joined_tail (l : list string) : string :=
  match l with
  | [] => ""
  | _ :: _ => "," +:+ String.concat "," l
  end.

Definition h2h_outcomes (home away : field string) : list raw_outcome :=
  [ {| o_name := home; o_price := Present (-150)%Z; o_point := Absent |};
    {| o_name := away; o_price := Present 130%Z; o_point := Absent |} ].

Definition raw_book (outcomes : list raw_outcome) : raw_bookmaker :=
  {| b_key := Present "booka"; b_title := Present "BookA";
     b_last_update := Present "2025-01-01T12:00:00Z";
     b_markets := Present [ {| m_key := Present "h2h";
                               m_outcomes := Present outcomes |} ] |}.

Definition raw_chiefs_bills (home away : field string)
    (outcomes : list raw_outcome) : raw_event :=
  {| e_id := Present "e1"; e_sport_key := Present "americanfootball_nfl";
     e_commence_time := Present "2025-01-01T18:00:00Z";
     e_home_team := home; e_away_team := away;
     e_bookmakers := Present [raw_book outcomes] |}.

(** A well-formed event. *)
Definition good_event : raw_event :=
  raw_chiefs_bills (Present "Chiefs") (Present "Bills")
    (h2h_outcomes (Present "Chiefs") (Present "Bills")).

(** The same event without its [home_team] and [away_team] keys. *)
Definition no_teams_event : raw_event :=
  raw_chiefs_bills Absent Absent
    (h2h_outcomes (Present "Chiefs") (Present "Bills")).

(** The same event with an outcome that has no [name] key. *)
Definition nameless_outcome_event : raw_event :=
  raw_chiefs_bills (Present "Chiefs") (Present "Bills")
    (h2h_outcomes (Present "Chiefs") Absent).

(** A configured service with an empty cache, and surroundings in which
    every upstream request times out. *)
Definition fresh_service : service := __init__ (Some "secret") None.

Definition failing_world : world :=
  {| session_get := fun _ _ => Failure (RequestException "Read timed out.");
     now_lookup := 0; utcnow_iso := "2025-01-01T00:00:00"; now_store := 0 |}.

(** *** Further vocabulary: the normaliser *)

(** The market keys [_parse_market] knows. *)
Definition known_market (k : option string) : bool :=
  bool_decide (k = Some "h2h") || bool_decide (k = Some "spreads")
  || bool_decide (k = Some "totals").

(** The outcome has a [name] key (which may hold [null]). *)
Definition named (o : raw_outcome) : bool :=
  match o_name o with
  | Absent => false
  | Null | Present _ => true
  end.

(** A list-valued key that can be iterated with all its elements in
    order: it is missing, or holds a list of elements that are in order. *)
Definition list_field_ok {A : Type} (ok : A -> bool) (f : field (list A)) : bool :=
  match f with
  | Absent => true
  | Null => false
  | Present l => forallb ok l
  end.

Definition market_ok (m : raw_market) : bool :=
  if known_market (get (m_key m)) then list_field_ok named (m_outcomes m)
  else true.

Definition bookmaker_ok (b : raw_bookmaker) : bool :=
  list_field_ok market_ok (b_markets b).

Definition event_ok (e : raw_event) : bool :=
  list_field_ok bookmaker_ok (e_bookmakers e).

(** The elements of a list-valued key, none for a missing key. *)
Definition elements_of {A : Type} (f : field (list A)) : list A :=
  default [] (get f).

(** The last element of a list that passes a test. *)
Fixpoint last_such {A : Type} (p : A -> bool) (l : list A) : option A :=
  match l with
  | [] => None
  | x :: rest =>
      match last_such p rest with
      | Some y => Some y
      | None => if p x then Some x else None
      end
  end.

(** The dictionary stored for an outcome. *)
Definition outcome_of (o : raw_outcome) : outcome_data :=
  {| price := get (o_price o); point := get (o_point o) |}.

Definition has_name (n : option string) (o : raw_outcome) : bool :=
  bool_decide (get (o_name o) = n).

Definition has_key (k : option string) (m : raw_market) : bool :=
  bool_decide (get (m_key m) = k).

(** An h2h market that names the Chiefs twice. *)
Definition chiefs_twice_market : raw_market :=
  {| m_key := Present "h2h";
     m_outcomes := Present
       [ {| o_name := Present "Chiefs"; o_price := Present (-140)%Z;
            o_point := Absent |};
         {| o_name := Present "Chiefs"; o_price := Present (-135)%Z;
            o_point := Absent |} ] |}.

(** A bookmaker with two h2h markets; the second one names the Chiefs
    twice. *)
Definition twice_quoted_book : raw_bookmaker :=
  {| b_key := Present "booka"; b_title := Present "BookA";
     b_last_update := Absent;
     b_markets := Present
       [ {| m_key := Present "h2h";
            m_outcomes := Present (h2h_outcomes (Present "Chiefs") (Present "Bills")) |};
         chiefs_twice_market ] |}.

(** *** Further vocabulary: the cache *)

(** Every cached response carries the length of its game list as its
    count. *)
Definition cache_consistent (self : service) : Prop :=
  ∀ k d t, cache self !! k = Some (d, t) → count d = length (games d).

(** Surroundings in which every upstream request is answered with [reply];
    the cache is read at [t_lookup] and written at [t_store]. *)
Definition fixed_world (reply : upstream_reply) (t_lookup t_store : Z) : world :=
  {| session_get := fun _ _ => reply;
     now_lookup := t_lookup; utcnow_iso := "2025-01-01T00:00:00";
     now_store := t_store |}.

(** A service that is not configured. *)
Definition unconfigured_service : service := __init__ None None.

(** [fresh_service] after a fetch of [good_event] at instant 0. *)
Definition warm_service : service :=
  _set_cached_data fresh_service 0 (cache_key ["h2h"])
    (_transform_odds_data "2025-01-01T00:00:00" [good_event] ["h2h"]).

End OddsApiService.

(** ** The comparison engine: [backend/app.py] *)

Module App.
Import OddsApiService.

(** [{'bookmaker': bookmaker['title'], 'price': price}] *)
Record best_entry : Type := {
  bookmaker : option string;
  best_price : Z
}.

Record best_odds_t : Type := {
  moneyline_home : option best_entry;
  moneyline_away : option best_entry;
  spread_home : option best_entry;
  spread_away : option best_entry;
  total_over : option best_entry;
  total_under : option best_entry
}.

Record game_info : Type := {
  gi_home_team : option string;
  gi_away_team : option string;
  gi_commence_time : option string
}.

Record comparison : Type := {
  cmp_game : game_info;
  best_odds : best_odds_t
}.

(** [price and (not best or price > best['price'])] for an integer
    price: [0] is falsy. *)
Definition improves (p : Z) (best : option best_entry) : bool :=
  negb (p =? 0)%Z &&
  match best with
  | None => true
  | Some b => (best_price b <? p)%Z
  end.

(** One side of the moneyline for one bookmaker: the [if team in h2h]
    block. A [price] of [None] is falsy and leaves the slot as it is. *)
Definition update_side (team : option string) (bk : book_data)
    (best : option best_entry) : option best_entry :=
  let h2h := default ∅ (markets bk !! Some "h2h") in
  match h2h !! team with
  | Some o =>
      match price o with
      | Some p =>
          if improves p best
          then Some {| bookmaker := title bk; best_price := p |}
          else best
      | None => best
      end
  | None => best
  end.

(** One iteration of [for bookmaker in game.get('bookmakers', [])]. *)
Definition compare_step (g : game) (c : best_odds_t) (bk : book_data)
  : best_odds_t :=
  {| moneyline_home := update_side (home_team g) bk (moneyline_home c);
     moneyline_away := update_side (away_team g) bk (moneyline_away c);
     spread_home := spread_home c;
     spread_away := spread_away c;
     total_over := total_over c;
     total_under := total_under c |}.

Definition no_odds : best_odds_t :=
  {| moneyline_home := None; moneyline_away := None;
     spread_home := None; spread_away := None;
     total_over := None; total_under := None |}.

Definition _compare_bookmaker_odds (g : game) : comparison :=
  {| cmp_game := {| gi_home_team := home_team g;
                    gi_away_team := away_team g;
                    gi_commence_time := commence_time g |};
     best_odds := fold_left (compare_step g) (bookmakers g) no_odds |}.

(** *** Vocabulary for the statements about the moneyline slots *)

Inductive side : Type := Home | Away.

Definition side_team (s : side) (g : game) : option string :=
  match s with
  | Home => home_team g
  | Away => away_team g
  end.

Definition moneyline_slot (s : side) (c : best_odds_t) : option best_entry :=
  match s with
  | Home => moneyline_home c
  | Away => moneyline_away c
  end.

(** The moneyline price of any kind a bookmaker quotes for a team. *)
Definition quoted_price (team : option string) (bk : book_data) : option Z :=
  o ← default ∅ (markets bk !! Some "h2h") !! team; price o.

(** The moneyline price a bookmaker has set for a team: quoted and
    different from the unset value [0]. *)
Definition set_price (team : option string) (bk : book_data) : option Z :=
  p ← quoted_price team bk; if (p =? 0)%Z then None else Some p.

(** The price of any kind a bookmaker quotes on one side of the spread
    market. *)
Definition spread_price (team : option string) (bk : book_data) : option Z :=
  o ← default ∅ (markets bk !! Some "spreads") !! team; price o.

(** A bookmaker that quotes only a moneyline, one price per team. *)
Definition h2h_book (name : string) (home away : string) (ph pa : Z)
  : book_data :=
  {| key := Some name; title := Some name; last_update := None;
     markets :=
       {[ Some "h2h" :=
            {[ Some home := {| price := Some ph; point := None |};
               Some away := {| price := Some pa; point := None |} ]} ]} |}.

(** A bookmaker that quotes only a spread. *)
Definition spread_book (name : string) (home away : string)
    (ph pa : Z) (pt : Q) : book_data :=
  {| key := Some name; title := Some name; last_update := None;
     markets :=
       {[ Some "spreads" :=
            {[ Some home := {| price := Some ph; point := Some pt |};
               Some away := {| price := Some pa; point := Some (- pt)%Q |} ]} ]} |}.

(** What the loop over the bookmakers has found after the list [l]:
    nothing when no bookmaker of [l] has set a price; otherwise the first
    bookmaker of [l] among those whose set price is the largest. *)
Definition found (team : option string) (l : list book_data)
    (best : option best_entry) : Prop :=
  match best with
  | None => ∀ i bk, l !! i = Some bk → set_price team bk = None
  | Some e =>
      ∃ i bk, l !! i = Some bk ∧ bookmaker e = title bk ∧
        set_price team bk = Some (best_price e) ∧
        (∀ j bk' p, l !! j = Some bk' → set_price team bk' = Some p →
                    (p ≤ best_price e)%Z) ∧
        (∀ j bk' p, (j < i)%nat → l !! j = Some bk' →
                    set_price team bk' = Some p → (p < best_price e)%Z)
  end.

(** *** Sample games *)

Definition chiefs_bills (books : list book_data) : game :=
  {| id := Some "e1"; sport := Some "americanfootball_nfl";
     commence_time := Some "2025-01-01T18:00:00Z";
     home_team := Some "Chiefs"; away_team := Some "Bills";
     bookmakers := books |}.




(** Two bookmakers quote the home side at +150, after one at -120. *)
Definition tie_game : game :=
  chiefs_bills [h2h_book "BookA" "Chiefs" "Bills" (-120) 100;
                h2h_book "BookB" "Chiefs" "Bills" 150 (-170);
                h2h_book "BookC" "Chiefs" "Bills" 150 (-180)].

(** One bookmaker quotes a spread: Chiefs -3.5 at -110, Bills +3.5 at -105. *)
Definition spread_game : game :=
  chiefs_bills [spread_book "BookA" "Chiefs" "Bills" (-110) (-105) (-7 # 2)].


(** The scenario of the specification: BookA quotes Chiefs -150 and
    Bills +130, BookB quotes Chiefs -140 and Bills +140. *)
Definition scenario_game : game :=
  chiefs_bills [h2h_book "BookA" "Chiefs" "Bills" (-150) 130;
                h2h_book "BookB" "Chiefs" "Bills" (-140) 140].

(** *** The routes *)

(** Truthiness of a query parameter or environment variable: it is there
    and not empty. *)
Definition given (o : option string) : bool :=
  match o with
  | Some s => negb (bool_decide (s = ""))
  | None => false
  end.

(** [s.split(sep)] for a separator of one character: the pieces between
    the separators, empty pieces included; never an empty list. *)
Fixpoint split (sep : ascii) (s : string) : list string :=
  match s with
  | EmptyString => [""]
  | String c rest =>
      if bool_decide (c = sep) then "" :: split sep rest
      else match split sep rest with
           | piece :: pieces => String c piece :: pieces
           | [] => [String c ""]
           end
  end.

(** What [jsonify] is given. *)
Inductive body : Type :=
| BodyOdds (r : odds_result)
| BodyComparison (c : comparison)
| BodyNotFound (home_team away_team : option string).

Record http_response : Type := {
  status : Z;
  payload : body
}.

(** [bookmakers_param.split(',') if bookmakers_param else None] *)
Definition bookmakers_filter (bookmakers_param : option string)
  : option (list string) :=
  match bookmakers_param with
  | Some s => if bool_decide (s = "") then None else Some (split "," s)
  | None => None
  end.

(** The route [/api/odds/nfl]; the two arguments are the query parameters
    [markets] and [bookmakers], [svc] is the service of the module. *)
Definition get_nfl_odds (svc : service) (w : world)
    (markets_arg bookmakers_arg : option string) : http_response * service :=
  let markets_param := default "h2h,spreads,totals" markets_arg in
  let markets := split "," markets_param in
  let bookmakers := bookmakers_filter bookmakers_arg in
  let '(result, svc') :=
    OddsApiService.get_nfl_odds svc w (Some markets) bookmakers "us" in
  ({| status := 200; payload := BodyOdds result |}, svc').

(** The test of the loop of [compare_odds] on one game. *)
Definition matches (home away : option string) (g : game) : bool :=
  given home && bool_decide (home_team g = home)
  || given away && bool_decide (away_team g = away).

(** [for g in all_odds.get('games', []): ... game = g; break] *)
Fixpoint find_game (home away : option string) (gs : list game) : option game :=
  match gs with
  | [] => None
  | g :: rest =>
      if given home && bool_decide (home_team g = home) then Some g
      else if given away && bool_decide (away_team g = away) then Some g
      else find_game home away rest
  end.

(** The route [/api/odds/compare]; the two arguments are the query
    parameters [home_team] and [away_team]. *)
Definition compare_odds (svc : service) (w : world)
    (home away : option string) : http_response * service :=
  let '(all_odds, svc') := OddsApiService.get_nfl_odds svc w None None "us" in
  match all_odds with
  | ErrorResult _ _ => ({| status := 400; payload := BodyOdds all_odds |}, svc')
  | OddsResult r =>
      match find_game home away (games r) with
      | None =>
          ({| status := 404; payload := BodyNotFound home away |}, svc')
      | Some g =>
          ({| status := 200;
              payload := BodyComparison (_compare_bookmaker_odds g) |}, svc')
      end
  end.

(** The route [/api/health]; the argument is the environment variable
    [ODDS_API_KEY]. *)
Record health : Type := {
  health_status : string;
  api_configured : bool;
  message : string
}.

Definition health_check (env_key : option string) : health :=
  let api_configured := given env_key in
  {| health_status := "healthy";
     api_configured := api_configured;
     message := if api_configured then "API is running"
                else "API key not configured - set ODDS_API_KEY" |}.

(** The service the module makes when it is loaded: [OddsAPIService()]. *)
Definition odds_api_service (env_key : option string) : service :=
  __init__ None env_key.

(** *** Further vocabulary *)

(** A game with another list of bookmakers. *)
Definition with_bookmakers (g : game) (l : list book_data) : game :=
  {| id := id g; sport := sport g; commence_time := commence_time g;
     home_team := home_team g; away_team := away_team g; bookmakers := l |}.

End App.

(** ** The scraper base class: [backend/scrapers/base_scraper.py] *)

Module BaseScraper.

(** A Python [str] is a sequence of Unicode code points. *)
Abbreviation str := (list N).

(** An ASCII literal as a [str]. *)
Definition py (s : string) : str :=
  N_of_ascii <$> String.list_ascii_of_string s.

(** The values [format_odds] can be handed. *)
Inductive pyval : Type :=
| VNone
| VInt (z : Z)
| VStr (s : str)
| VBytes (b : list N).

(** [s.replace(old, new)] for a non-empty [old], as at both call sites:
    the occurrences are replaced from the left and do not overlap.
    [skip] counts the characters of a matched occurrence still to drop. *)
Fixpoint replace_from (old new : str) (skip : nat) (s : str) : str :=
  match s with
  | [] => []
  | c :: rest =>
      match skip with
      | S k => replace_from old new k rest
      | O =>
          if bool_decide (take (length old) s = old)
          then new ++ replace_from old new (length old - 1) rest
          else c :: replace_from old new 0 rest
      end
  end.

Definition replace (old new s : str) : str := replace_from old new 0 s.

(** The second literal of [format_odds] as the source file holds it: the
    three code points U+00E2 U+02C6 U+2019, which is what the UTF-8 bytes
    of the minus sign U+2212 read as Windows-1252 look like. *)
Definition minus_glyph : str := [226; 710; 8217]%N.

(** *** The built-in [int(str)] *)

(** The tables and the setting of the interpreter that [int] consults for
    characters outside ASCII and for long inputs. *)
Record runtime : Type := {
  Py_UNICODE_ISSPACE : N -> bool;
  Py_UNICODE_TODECIMAL : N -> option N;
  int_max_str_digits : N
}.

Section Int.
Variable rt : runtime.

(** Space and decimal digits outside ASCII become a blank and an ASCII
    digit, any other character outside ASCII becomes ['?']. *)
Definition to_ascii (c : N) : N :=
  if (c <? 128)%N then c
  else if Py_UNICODE_ISSPACE rt c then 32%N
  else match Py_UNICODE_TODECIMAL rt c with
       | Some d => (48 + d)%N
       | None => 63%N
       end.

(** [Py_ISSPACE]: tab, line feed, vertical tab, form feed, carriage
    return and blank. *)
Definition is_space (c : N) : bool :=
  ((9 <=? c) && (c <=? 13) || (c =? 32))%N.

Definition is_digit (c : N) : bool := ((48 <=? c) && (c <=? 57))%N.

Definition underscore : N := 95%N.

Fixpoint skip_spaces (s : str) : str :=
  match s with
  | c :: rest => if is_space c then skip_spaces rest else s
  | [] => []
  end.

(** The digit loop: digits and single underscores; [prev] is the
    character read last, [acc] the value so far, [digits] the number of
    digits read. Returns the value, the digit count and what is left. *)
Fixpoint scan_digits (s : str) (prev : N) (acc : Z) (digits : N)
  : option (Z * N * str) :=
  let stop := if (prev =? underscore)%N then None else Some (acc, digits, s) in
  match s with
  | c :: rest =>
      if is_digit c then
        scan_digits rest c (10 * acc + Z.of_N (c - 48)) (digits + 1)%N
      else if (c =? underscore)%N then
        if (prev =? underscore)%N then None
        else scan_digits rest c acc digits
      else stop
  | [] => stop
  end.

(** The input is refused when it has more digits than the limit allows;
    a limit of [0] switches the check off. *)
Definition too_many_digits (digits : N) : bool :=
  ((640 <? digits) && (0 <? int_max_str_digits rt)
   && (int_max_str_digits rt <? digits))%N.

(** [int(s)] in base ten. *)
Definition py_int (s : str) : result Z :=
  let s := skip_spaces (to_ascii <$> s) in
  let '(negative, s) :=
    match s with
    | c :: rest =>
        if (c =? 43)%N then (false, rest)
        else if (c =? 45)%N then (true, rest)
        else (false, s)
    | [] => (false, s)
    end in
  match s with
  | c :: _ =>
      if is_digit c then
        match scan_digits s 0%N 0 0%N with
        | Some (v, digits, rest) =>
            if too_many_digits digits then Raise ValueError
            else match skip_spaces rest with
                 | [] => Ok (if negative then - v else v)
                 | _ :: _ => Raise ValueError
                 end
        | None => Raise ValueError
        end
      else Raise ValueError
  | [] => Raise ValueError
  end.

(** The expression inside the [try] of [format_odds]. A value without a
    [replace] attribute raises [AttributeError]; [bytes.replace] refuses
    [str] arguments with [TypeError]. *)
Definition format_odds_body (odds : pyval) : result Z :=
  match odds with
  | VStr s => py_int (replace minus_glyph (py "-") (replace (py "+") [] s))
  | VBytes _ => Raise TypeError
  | VNone | VInt _ => Raise AttributeError
  end.

(** [try: return ... except (ValueError, AttributeError): return 0] *)
Definition format_odds (odds : pyval) : result Z :=
  match format_odds_body odds with
  | Raise ValueError | Raise AttributeError => Ok 0
  | r => r
  end.

End Int.

(** *** Implied probability *)

(** [a / b] on integers: the quotient as a number, [ZeroDivisionError]
    for a zero divisor. The model keeps the exact rational value where
    Python rounds it to the nearest binary64 float. *)
Definition truediv (a b : Z) : result Q :=
  if (b =? 0)%Z then Raise ZeroDivisionError
  else Ok (inject_Z a / inject_Z b)%Q.

Definition calculate_implied_probability (american_odds : Z) : result Q :=
  if (american_odds <? 0)%Z then
    q ← truediv (Z.abs american_odds) (Z.abs american_odds + 100);
    Ok (q * 100)%Q
  else
    q ← truediv 100 (american_odds + 100);
    Ok (q * 100)%Q.




(** *** Vocabulary for the statements *)

(** The two operands of the division, by branch. *)
Definition numerator (american_odds : Z) : Z :=
  if (american_odds <? 0)%Z then Z.abs american_odds else 100.

Definition denominator (american_odds : Z) : Z :=
  if (american_odds <? 0)%Z then Z.abs american_odds + 100
  else american_odds + 100.

(** How a numeral writes its sign. *)
Inductive sign_style : Type :=
| Unsigned
| AsciiMinus
| GlyphMinus.

Definition sign_str (sg : sign_style) : str :=
  match sg with
  | Unsigned => []
  | AsciiMinus => py "-"
  | GlyphMinus => minus_glyph
  end.

Definition digit_char (d : N) : N := (48 + d)%N.

(** A decimal numeral: an optional leading ['+'], a sign, the digits. *)
Definition numeral (plus : bool) (sg : sign_style) (ds : list N) : str :=
  (if plus then py "+" else []) ++ sign_str sg ++ (digit_char <$> ds).

(** The value of a sequence of decimal digits read after the value [acc]. *)
Definition digits_value (acc : Z) (ds : list N) : Z :=
  fold_left (fun a d => 10 * a + Z.of_N d)%Z ds acc.

Definition signed (sg : sign_style) (v : Z) : Z :=
  match sg with
  | Unsigned => v
  | AsciiMinus | GlyphMinus => (- v)%Z
  end.

(** An interpreter whose tables know no space and no digit outside ASCII,
    with the digit limit at its default; it serves the inputs within
    ASCII. *)
Definition ascii_runtime : runtime :=
  {| Py_UNICODE_ISSPACE := fun _ => false;
     Py_UNICODE_TODECIMAL := fun _ => None;
     int_max_str_digits := 4300 |}.

(** *** The cache of a scraper and the scraping skeleton *)

(** [x < y] on the readings of [time.time()], which are kept as exact
    rationals. *)
Definition Qltb (x y : Q) : bool := negb (Qle_bool y x).

Section Scraping.
(** A parsed page and a scraped game; both come from libraries outside the
    repository and are left open. *)
Variables (soup G : Type).

Record scraper : Type := {
  cache : gmap string (list G * Q);
  cache_duration : Z
}.

Definition new_scraper : scraper := {| cache := ∅; cache_duration := 300 |}.

Definition get_cached_data (self : scraper) (now : Q) (k : string)
  : option (list G) :=
  match cache self !! k with
  | Some (data, stamp) =>
      if Qltb (now - stamp) (inject_Z (cache_duration self)) then Some data
      else None
  | None => None
  end.

Definition set_cached_data (self : scraper) (now : Q) (k : string)
    (data : list G) : scraper :=
  {| cache := <[k := (data, now)]> (cache self);
     cache_duration := cache_duration self |}.

(** [get_page]; [fetch] stands for [session.get], [raise_for_status] and
    the construction of the parsed page. A [RequestException] becomes
    [None], any other exception goes on. *)
Definition get_page (fetch : string -> result soup) (url : string)
  : result (option soup) :=
  match fetch url with
  | Ok page => Ok (Some page)
  | Raise (RequestException _) => Ok None
  | Raise e => Raise e
  end.

(** The [try] block of [scrape_nfl_games], the same in the four scrapers;
    [parse] stands for the statements between the fetch and the store,
    which read the games off the page and can raise. *)
Definition scrape_and_store (NFL_URL : string)
    (parse : soup -> result (list G)) (self : scraper)
    (fetch : string -> result soup) (t_store : Q)
  : result (list G * scraper) :=
  page ← get_page fetch NFL_URL;
  match page with
  | None => Ok ([], self)
  | Some page =>
      games ← parse page;
      Ok (games, set_cached_data self t_store "nfl_games" games)
  end.

(** [scrape_nfl_games]: [if cached: return cached] passes an empty list
    on to the scraping. *)
Definition scrape_nfl_games (NFL_URL : string)
    (parse : soup -> result (list G)) (self : scraper)
    (fetch : string -> result soup) (t_lookup t_store : Q)
  : list G * scraper :=
  match get_cached_data self t_lookup "nfl_games" with
  | Some (g :: gs) => (g :: gs, self)
  | Some [] | None =>
      match scrape_and_store NFL_URL parse self fetch t_store with
      | Ok r => r
      | Raise _ => ([], self)
      end
  end.

End Scraping.

Arguments cache {G} _.
Arguments cache_duration {G} _.
Arguments new_scraper {G}.
Arguments get_cached_data {G} _ _ _.
Arguments set_cached_data {G} _ _ _ _.
Arguments get_page {soup} _ _.
Arguments scrape_and_store {soup G} _ _ _ _ _.
Arguments scrape_nfl_games {soup G} _ _ _ _ _ _.

(** The cache of the scraper has no game list to hand out at the instant
    [t]: no entry, an entry that is too old, or an empty list. *)
Definition nothing_to_serve {G : Type} (self : scraper G) (t : Q) : bool :=
  match get_cached_data self t "nfl_games" with
  | Some (_ :: _) => false
  | Some [] | None => true
  end.

(** A page that is its own text, read as one game per page, and a page
    source that always times out. *)
Definition page_of_one (text : string) : result (list string) := Ok [text].

Definition page_of_none (text : string) : result (list string) := Ok [].

Definition serve (text : string) (url : string) : result string := Ok text.

Definition time_out (url : string) : result string :=
  Raise (RequestException "Read timed out.").

End BaseScraper.

(** * Properties *)

(** ** The comparison engine *)

Section Comparison.
Import OddsApiService App.

Implicit Types (g : game) (bk : book_data) (best : option best_entry).

(** [update_side] through the price a bookmaker has set. *)
Lemma update_side_set_price team bk best :
  update_side team bk best =
    match set_price team bk with
    | Some p =>
        match best with
        | None => Some {| bookmaker := title bk; best_price := p |}
        | Some b =>
            if (best_price b <? p)%Z
            then Some {| bookmaker := title bk; best_price := p |}
            else best
        end
    | None => best
    end.
Proof.
  unfold update_side, set_price, quoted_price, improves.
  destruct (default ∅ (markets bk !! Some "h2h") !! team) as [o|]; simpl; [|done].
  destruct (price o) as [p|]; simpl; [|done].
  destruct (p =? 0)%Z; simpl; [done|].
  by destruct best.
Qed.

(** Each moneyline slot is folded on its own. *)
Lemma moneyline_slot_fold g s (l : list book_data) (c : best_odds_t) :
  moneyline_slot s (fold_left (compare_step g) l c) =
    fold_left (fun best bk => update_side (side_team s g) bk best) l
      (moneyline_slot s c).
Proof.
  revert c. induction l as [|bk l IH]; intros c; simpl; [done|].
  rewrite IH. by destruct s.
Qed.

(** The other four slots are never written. *)
Lemma other_slots_fold g (l : list book_data) (c : best_odds_t) :
  let c' := fold_left (compare_step g) l c in
  spread_home c' = spread_home c ∧ spread_away c' = spread_away c ∧
  total_over c' = total_over c ∧ total_under c' = total_under c.
Proof.
  revert c. induction l as [|bk l IH]; intros c; simpl; [done|].
  apply (IH (compare_step g c bk)).
Qed.

(** A lookup in [l ++ [bk]] is a lookup in [l] or finds [bk]. *)
Ltac snoc_lookup H :=
  apply lookup_app_Some in H as [H|[_ H]];
  [|apply list_lookup_singleton_Some in H as [_ <-]].

(** The entry found in [l] is still found in [l ++ [bk]]. *)
Lemma found_keep team (l : list book_data) bk (e : best_entry) :
  found team l (Some e) →
  (∀ p, set_price team bk = Some p → (p ≤ best_price e)%Z) →
  found team (l ++ [bk]) (Some e).
Proof.
  intros (i & bi & Hi & Ht & Hs & Hmax & Hfirst) Hbk.
  assert (i < length l)%nat by by eapply lookup_lt_Some.
  exists i, bi. split_and!; try done.
  - by rewrite lookup_app_l.
  - intros j bk' q Hj Hq. snoc_lookup Hj; [by eapply Hmax|by apply Hbk].
  - intros j bk' q Hji Hj Hq.
    rewrite lookup_app_l in Hj by lia. by eapply Hfirst.
Qed.

(** The last bookmaker is found when its price beats all of [l]. *)
Lemma found_last team (l : list book_data) bk (p : Z) :
  set_price team bk = Some p →
  (∀ j bk' q, l !! j = Some bk' → set_price team bk' = Some q → (q < p)%Z) →
  found team (l ++ [bk]) (Some {| bookmaker := title bk; best_price := p |}).
Proof.
  intros Hp Hlt. exists (length l), bk. split_and!; try done.
  - by rewrite lookup_app_r, Nat.sub_diag by lia.
  - intros j bk' q Hj Hq. snoc_lookup Hj.
    + specialize (Hlt _ _ _ Hj Hq). simpl. lia.
    + rewrite Hp in Hq. injection Hq as <-. simpl. lia.
  - intros j bk' q Hlen Hj Hq. rewrite lookup_app_l in Hj by done.
    by eapply Hlt.
Qed.

Lemma found_step team (l : list book_data) bk best :
  found team l best → found team (l ++ [bk]) (update_side team bk best).
Proof.
  intros Hf. rewrite update_side_set_price.
  destruct (set_price team bk) as [p|] eqn:Hp, best as [e|].
  - destruct (best_price e <? p)%Z eqn:Hlt.
    + apply Z.ltb_lt in Hlt. apply found_last; [done|].
      destruct Hf as (i & bi & _ & _ & _ & Hmax & _).
      intros j bk' q Hj Hq. specialize (Hmax _ _ _ Hj Hq). lia.
    + apply Z.ltb_ge in Hlt. apply found_keep; [done|].
      intros q Hq. rewrite Hp in Hq. by injection Hq as <-.
  - apply found_last; [done|]. intros j bk' q Hj Hq.
    simpl in Hf. by rewrite (Hf _ _ Hj) in Hq.
  - apply found_keep; [done|]. intros q Hq. congruence.
  - simpl in *. intros i bi Hi. snoc_lookup Hi; [by eapply Hf|done].
Qed.

Lemma found_fold team (l : list book_data) :
  found team l
    (fold_left (fun best bk => update_side team bk best) l None).
Proof.
  induction l as [|bk l IH] using rev_ind.
  - simpl. intros i bk Hi. done.
  - rewrite fold_left_app. simpl. by apply found_step.
Qed.

Lemma found_compare g s :
  found (side_team s g) (bookmakers g)
    (moneyline_slot s (best_odds (_compare_bookmaker_odds g))).
Proof.
  unfold _compare_bookmaker_odds. simpl. rewrite moneyline_slot_fold.
  replace (moneyline_slot s no_odds) with (@None best_entry) by by destruct s.
  apply found_fold.
Qed.



(** C2: the spread and total slots of every comparison are null; in
    [spread_game] BookA quotes the Chiefs' spread at -110 and the home
    spread slot is null all the same. *)
Theorem spread_and_total_slots_stay_null :
  spread_price (Some "Chiefs")
      (spread_book "BookA" "Chiefs" "Bills" (-110) (-105) (-7 # 2))
    = Some (-110)%Z
  ∧ spread_home (best_odds (_compare_bookmaker_odds spread_game)) = None
  ∧ ∀ g, spread_home (best_odds (_compare_bookmaker_odds g)) = None ∧
         spread_away (best_odds (_compare_bookmaker_odds g)) = None ∧
         total_over (best_odds (_compare_bookmaker_odds g)) = None ∧
         total_under (best_odds (_compare_bookmaker_odds g)) = None.
Proof.
  split_and!; [by vm_compute..|].
  intros g. apply (other_slots_fold g (bookmakers g) no_odds).
Qed.




(** The scenario of the specification. *)
Example scenario_best_odds :
  moneyline_slot Home (best_odds (_compare_bookmaker_odds scenario_game))
    = Some {| bookmaker := Some "BookB"; best_price := -140 |}
  ∧ moneyline_slot Away (best_odds (_compare_bookmaker_odds scenario_game))
    = Some {| bookmaker := Some "BookB"; best_price := 140 |}.
Proof. split; by vm_compute. Qed.

End Comparison.

(** ** The normaliser *)

Section Normaliser.
Import OddsApiService.

Lemma transform_events_omap (data : list raw_event) (acc : list game) :
  transform_events data acc = (acc ++ omap transformed data)%list.
Proof.
  revert acc. induction data as [|event data IH]; intros acc; simpl.
  - by rewrite app_nil_r.
  - unfold transformed at 1. destruct (transform_event event) as [g|e].
    + by rewrite IH, <- app_assoc.
    + apply IH.
Qed.

Lemma transform_event_unfold (event : raw_event) :
  transform_event event =
    match event_bookmakers event with
    | Ok books =>
        Ok {| id := get (e_id event);
              sport := get (e_sport_key event);
              commence_time := get (e_commence_time event);
              home_team := get (e_home_team event);
              away_team := get (e_away_team event);
              bookmakers := books |}
    | Raise e => Raise e
    end.
Proof.
  unfold transform_event, event_bookmakers.
  destruct (iter _) as [bs|e]; simpl; [|done].
  by destruct (transform_bookmakers bs []).
Qed.

(** C3, as amended. The normaliser returns, in order, the games of
    exactly those events whose transformation raises no exception, so an
    event that fails is skipped and the rest of the batch is still
    processed and returned. An event fails exactly when the transformation
    of its bookmakers fails; the [home_team] and [away_team] keys play no
    part in that, and a game carries [None] where its event lacks them. *)
Theorem transform_skips_failing_events (utcnow : string)
    (data : list raw_event) (markets : list string) :
  games (_transform_odds_data utcnow data markets) = omap transformed data
  ∧ (∀ event, transformed event = None ↔ ∃ e, event_bookmakers event = Raise e)
  ∧ (∀ event g, transformed event = Some g →
       home_team g = get (e_home_team event) ∧
       away_team g = get (e_away_team event))
  ∧ games (_transform_odds_data utcnow
             [nameless_outcome_event; no_teams_event; good_event] markets)
    = omap transformed [no_teams_event; good_event].
Proof.
  split_and!.
  - unfold _transform_odds_data. simpl. by rewrite transform_events_omap.
  - intros event. unfold transformed. rewrite transform_event_unfold.
    destruct (event_bookmakers event) as [books|e]; split; try done.
    + by intros [e He].
    + by exists e.
  - intros event g. unfold transformed. rewrite transform_event_unfold.
    destruct (event_bookmakers event) as [books|e]; [|done].
    intros [= <-]. done.
  - by vm_compute.
Qed.

(** C3, as stated, fails: of a batch of a well-formed event and an event
    without [home_team] and [away_team], both are returned, the second
    with [None] for the two teams. *)
Lemma event_without_teams_is_kept :
  ∃ g1 g2,
    games (_transform_odds_data "now" [good_event; no_teams_event] ["h2h"])
      = [g1; g2]
    ∧ e_home_team no_teams_event = Absent ∧ e_away_team no_teams_event = Absent
    ∧ home_team g2 = None ∧ away_team g2 = None ∧ id g2 = Some "e1"
    ∧ count (_transform_odds_data "now" [good_event; no_teams_event] ["h2h"])
      = 2%nat.
Proof. eexists _, _. split_and!; by vm_compute. Qed.

(** C10. The [count] of a transformed response is the length of its
    [games], however many events of the batch were skipped; it never
    exceeds the size of the batch. *)
Theorem count_is_number_of_games (utcnow : string)
    (data : list raw_event) (markets : list string) :
  count (_transform_odds_data utcnow data markets)
    = length (games (_transform_odds_data utcnow data markets))
  ∧ (count (_transform_odds_data utcnow data markets) ≤ length data)%nat.
Proof.
  split; [done|].
  unfold _transform_odds_data, count. rewrite transform_events_omap.
  rewrite app_nil_l.
  induction data as [|event data IH]; [done|].
  cbn [omap list_omap]. destruct (transformed event); cbn [length]; lia.
Qed.

End Normaliser.

(** ** The cache key and the fetch operation *)

Section Fetch.
Import OddsApiService.

Lemma append_nil_l (x : string) : "" +:+ x = x.
Proof. reflexivity. Qed.

Lemma append_cons (c : ascii) (a x : string) :
  String c a +:+ x = String c (a +:+ x).
Proof. reflexivity. Qed.

Lemma append_nil_r (a : string) : a +:+ "" = a.
Proof. induction a as [|c a IH]; [done|]. by rewrite append_cons, IH. Qed.

Lemma append_inj_l (p x y : string) : p +:+ x = p +:+ y → x = y.
Proof.
  induction p as [|c p IH]; [done|]. rewrite !append_cons.
  intros [= H]. by apply IH.
Qed.

Lemma concat_cons (a : string) (l : list string) :
  String.concat "," (a :: l) = a +:+ joined_tail l.
Proof.
  destruct l; [|done]. simpl joined_tail. simpl String.concat.
  by rewrite append_nil_r.
Qed.

Lemma joined_tail_head (l : list string) :
  joined_tail l = "" ∨ ∃ t, joined_tail l = String "," t.
Proof. destruct l; simpl; eauto. Qed.

(** A name without a comma ends where the joined string has its first
    comma or its end. *)
Lemma comma_free_prefix_inj (a b x y : string) :
  has_comma a = false → has_comma b = false →
  (x = "" ∨ ∃ t, x = String "," t) → (y = "" ∨ ∃ t, y = String "," t) →
  a +:+ x = b +:+ y → a = b ∧ x = y.
Proof.
  revert b. induction a as [|c a IH]; intros [|d b] Ha Hb Hx Hy;
    rewrite ?append_nil_l, ?append_cons; simpl in Ha, Hb.
  - done.
  - intros ->. apply orb_false_elim in Hb as [Hd _].
    destruct Hx as [[=]|[t [= -> _]]]. by rewrite bool_decide_eq_true_2 in Hd.
  - intros <-. apply orb_false_elim in Ha as [Hc _].
    destruct Hy as [[=]|[t [= -> _]]]. by rewrite bool_decide_eq_true_2 in Hc.
  - intros [= -> H]. apply orb_false_elim in Ha as [_ Ha].
    apply orb_false_elim in Hb as [_ Hb].
    destruct (IH b Ha Hb Hx Hy H) as [-> ->]. done.
Qed.

Lemma concat_comma_inj (m1 m2 : list string) :
  m1 ≠ [] → m2 ≠ [] →
  Forall (fun m => has_comma m = false) m1 →
  Forall (fun m => has_comma m = false) m2 →
  String.concat "," m1 = String.concat "," m2 → m1 = m2.
Proof.
  revert m2. induction m1 as [|a l1 IH]; intros [|b l2] H1 H2 F1 F2; try done.
  rewrite !concat_cons. intros H.
  apply Forall_cons in F1 as [Ha F1]. apply Forall_cons in F2 as [Hb F2].
  apply comma_free_prefix_inj in H as [-> Ht];
    [|done|done|apply joined_tail_head|apply joined_tail_head].
  f_equal. destruct l1 as [|a1 l1], l2 as [|b1 l2]; simpl in Ht; try done.
  injection Ht as Ht. by apply IH.
Qed.

(** C4, as amended. The cache key is the requested market list joined in
    the order given: of two calls with the same bookmaker filter, whose
    market lists are non-empty lists of names without a comma (as the
    route produces them by splitting at the commas), the keys are equal
    exactly when the market lists are equal as sequences. *)
Theorem cache_key_follows_market_sequence (m1 m2 : list string)
    (sportsbooks : option (list string)) (regions : string) :
  m1 ≠ [] → m2 ≠ [] →
  Forall (fun m => has_comma m = false) m1 →
  Forall (fun m => has_comma m = false) m2 →
  derived_cache_key (Some m1) sportsbooks regions
    = derived_cache_key (Some m2) sportsbooks regions
  ↔ m1 = m2.
Proof.
  intros H1 H2 F1 F2. split; [|by intros ->].
  unfold derived_cache_key, cache_key. simpl default_markets.
  intros H%append_inj_l. by apply concat_comma_inj.
Qed.

Lemma cache_key_follows_market_sequence_witness :
  derived_cache_key (Some ["h2h"; "spreads"]) None "us"
    = derived_cache_key (Some ["spreads"; "h2h"]) None "us"
  ↔ ["h2h"; "spreads"] = ["spreads"; "h2h"].
Proof.
  apply (cache_key_follows_market_sequence
           ["h2h"; "spreads"] ["spreads"; "h2h"] None "us").
  - discriminate.
  - discriminate.
  - repeat constructor.
  - repeat constructor.
Defined.

(** C4, as stated, fails: the two orders of the markets h2h and spreads
    give different keys, and the keys of two calls with different
    bookmaker filters are the same. *)
Lemma cache_key_order_and_filter :
  ["h2h"; "spreads"] ≡ₚ ["spreads"; "h2h"]
  ∧ derived_cache_key (Some ["h2h"; "spreads"]) None "us" = "nfl_odds_h2h,spreads"
  ∧ derived_cache_key (Some ["spreads"; "h2h"]) None "us" = "nfl_odds_spreads,h2h"
  ∧ derived_cache_key (Some ["h2h"; "spreads"]) None "us"
    ≠ derived_cache_key (Some ["spreads"; "h2h"]) None "us"
  ∧ Some ["draftkings"] ≠ Some ["fanduel"]
  ∧ derived_cache_key (Some ["h2h"]) (Some ["draftkings"]) "us"
    = derived_cache_key (Some ["h2h"]) (Some ["fanduel"]) "us".
Proof. split_and!; try done. apply Permutation_swap. Qed.

(** A successful fetch stores its response under the derived key. *)
Lemma get_nfl_odds_stores_under_key (self : service) (w : world)
    (markets sportsbooks : option (list string)) (regions : string)
    (data : list raw_event) :
  no_key self = false →
  _get_cached_data self (now_lookup w)
    (derived_cache_key markets sportsbooks regions) = None →
  session_get w odds_url
    (build_params self (default_markets markets) sportsbooks regions)
    = Reply data →
  ∃ res, get_nfl_odds self w markets sportsbooks regions
           = (OddsResult res,
              _set_cached_data self (now_store w)
                (derived_cache_key markets sportsbooks regions) res)
         ∧ res = _transform_odds_data (utcnow_iso w) data (default_markets markets).
Proof.
  intros Hk Hc Hr. eexists. split; [|done].
  unfold get_nfl_odds, fetch_and_store. rewrite Hk.
  unfold derived_cache_key in Hc. rewrite Hc.
  by rewrite Hr.
Qed.

(** C7. When the upstream adapter fails with the exception [e] on the
    request of a call, the call leaves the service, and with it the cache
    and the entry of the query's key, as it was; and when the call gets as
    far as the adapter (the service is configured and the cache has no
    valid entry for the key), it raises nothing and returns the error
    dictionary with the description of [e] and an empty game list. *)
Theorem upstream_failure_is_reported_not_cached (self : service) (w : world)
    (markets sportsbooks : option (list string)) (regions : string) (e : exn) :
  session_get w odds_url
    (build_params self (default_markets markets) sportsbooks regions)
    = Failure e →
  (get_nfl_odds self w markets sportsbooks regions).2 = self
  ∧ cache (get_nfl_odds self w markets sportsbooks regions).2
      !! derived_cache_key markets sportsbooks regions
    = cache self !! derived_cache_key markets sportsbooks regions
  ∧ (no_key self = false →
     _get_cached_data self (now_lookup w)
       (derived_cache_key markets sportsbooks regions) = None →
     (get_nfl_odds self w markets sportsbooks regions).1
       = ErrorResult (str_exn e) []).
Proof.
  intros Hr.
  assert ((get_nfl_odds self w markets sportsbooks regions).2 = self) as Hself.
  { unfold get_nfl_odds, fetch_and_store. rewrite Hr.
    destruct (no_key self); [done|]. by destruct (_get_cached_data _ _ _). }
  split_and!; [done|by rewrite Hself|].
  intros Hk Hc. unfold get_nfl_odds, fetch_and_store.
  unfold derived_cache_key in Hc. by rewrite Hk, Hc, Hr.
Qed.

Lemma upstream_failure_is_reported_not_cached_witness :
  (get_nfl_odds fresh_service failing_world (Some ["h2h"]) None "us").2
    = fresh_service
  ∧ cache (get_nfl_odds fresh_service failing_world (Some ["h2h"]) None "us").2
      !! derived_cache_key (Some ["h2h"]) None "us"
    = cache fresh_service !! derived_cache_key (Some ["h2h"]) None "us"
  ∧ (no_key fresh_service = false →
     _get_cached_data fresh_service (now_lookup failing_world)
       (derived_cache_key (Some ["h2h"]) None "us") = None →
     (get_nfl_odds fresh_service failing_world (Some ["h2h"]) None "us").1
       = ErrorResult (str_exn (RequestException "Read timed out.")) []).
Proof.
  apply (upstream_failure_is_reported_not_cached fresh_service failing_world
           (Some ["h2h"]) None "us" (RequestException "Read timed out.")).
  reflexivity.
Defined.

(** The same call, evaluated. *)
Example timed_out_fetch :
  get_nfl_odds fresh_service failing_world (Some ["h2h"]) None "us"
    = (ErrorResult "Read timed out." [], fresh_service).
Proof. reflexivity. Qed.

(** A lookup after a store returns the stored response while the entry is
    younger than the cache duration, and nothing once it is older. *)
Lemma get_cached_after_set (self : service) (t1 t2 : Z) (k : string)
    (d : response) :
  _get_cached_data (_set_cached_data self t1 k d) t2 k
    = if (t2 - t1 <? cache_duration self * 1000000)%Z then Some d else None.
Proof.
  unfold _get_cached_data, _set_cached_data. cbn [cache cache_duration].
  by rewrite lookup_insert_eq.
Qed.

(** X4. A response stored by one call is handed, while it is valid, to a
    later call for the same market sequence, whatever bookmaker filter and
    region the later call names; the adapter is not asked again. *)
Lemma cached_response_is_reused (self : service) (w1 w2 : world)
    (markets sb1 sb2 : option (list string)) (r1 r2 : string)
    (data : list raw_event) :
  no_key self = false →
  _get_cached_data self (now_lookup w1) (derived_cache_key markets sb1 r1) = None →
  session_get w1 odds_url (build_params self (default_markets markets) sb1 r1)
    = Reply data →
  (now_lookup w2 - now_store w1 < cache_duration self * 1000000)%Z →
  ∃ res self1,
    get_nfl_odds self w1 markets sb1 r1 = (OddsResult res, self1)
    ∧ get_nfl_odds self1 w2 markets sb2 r2 = (OddsResult res, self1).
Proof.
  intros Hk Hc Hr Ht.
  destruct (get_nfl_odds_stores_under_key self w1 markets sb1 r1 data Hk Hc Hr)
    as (res & Hget & _).
  eexists _, _. split; [exact Hget|].
  unfold get_nfl_odds.
  change (no_key (_set_cached_data self ?t ?k ?d)) with (no_key self).
  rewrite Hk. unfold derived_cache_key. rewrite get_cached_after_set.
  by rewrite (proj2 (Z.ltb_lt _ _) Ht).
Qed.

End Fetch.

(** ** Implied probability *)

Section ImpliedProbability.
Import BaseScraper.

Lemma denominator_pos (p : Z) : (0 < denominator p)%Z.
Proof. unfold denominator. destruct (Z.ltb_spec p 0); lia. Qed.

Lemma calculate_implied_probability_eq (p : Z) :
  calculate_implied_probability p =
    Ok (inject_Z (numerator p) / inject_Z (denominator p) * 100)%Q.
Proof.
  pose proof (denominator_pos p) as Hd. revert Hd.
  unfold calculate_implied_probability, numerator, denominator, truediv.
  destruct (p <? 0)%Z; intros Hd.
  - destruct (Z.eqb_spec (Z.abs p + 100) 0); [lia|done].
  - destruct (Z.eqb_spec (p + 100) 0); [lia|done].
Qed.







Example implied_probability_minus_110 :
  ∃ q : Q, calculate_implied_probability (-110) = Ok q
           ∧ (q == 1100 # 21)%Q ∧ (50 < q)%Q ∧ (q < 100)%Q.
Proof. eexists. split_and!; reflexivity. Qed.

Example implied_probability_plus_150 :
  ∃ q : Q, calculate_implied_probability 150 = Ok q
           ∧ (q == 40)%Q ∧ (0 < q)%Q ∧ (q < 50)%Q.
Proof. eexists. split_and!; reflexivity. Qed.

(** C8. For every integer the divisor of the branch taken is positive:
    [|p| + 100] for a negative price, [p + 100] otherwise. The division is
    therefore defined and the conversion returns a value, it raises
    nothing; this includes the prices 0, -100 and 100. *)
Theorem implied_probability_total (p : Z) :
  (0 < denominator p)%Z
  ∧ (0 < Z.abs p + 100)%Z
  ∧ ((p <? 0)%Z = false → (0 < p + 100)%Z)
  ∧ truediv (numerator p) (denominator p)
    = Ok (inject_Z (numerator p) / inject_Z (denominator p))%Q
  ∧ calculate_implied_probability p
    = Ok (inject_Z (numerator p) / inject_Z (denominator p) * 100)%Q
  ∧ denominator 0 = 100%Z ∧ denominator (-100) = 200%Z
  ∧ denominator 100 = 200%Z.
Proof.
  pose proof (denominator_pos p) as Hd.
  split_and!; try done.
  - lia.
  - intros Hp%Z.ltb_ge. lia.
  - unfold truediv. destruct (Z.eqb_spec (denominator p) 0); [lia|done].
  - apply calculate_implied_probability_eq.
Qed.

End ImpliedProbability.

(** ** The odds-string parser *)

Section FormatOdds.
Import BaseScraper.
Variable rt : runtime.

(** A string without the first character of [old] has no occurrence of
    [old]. *)
Lemma replace_from_absent (c0 : N) (old' new s : str) :
  Forall (fun c => c ≠ c0) s → replace_from (c0 :: old') new 0 s = s.
Proof.
  induction s as [|c s IH]; [done|]. intros [Hc Hs]%Forall_cons.
  cbn [replace_from]. rewrite bool_decide_eq_false_2.
  - by rewrite IH.
  - cbn [length take]. intros [= ? _]. done.
Qed.

Lemma digit_char_bounds (d : N) :
  (d < 10)%N → (48 ≤ digit_char d)%N ∧ (digit_char d ≤ 57)%N.
Proof. unfold digit_char. lia. Qed.

Lemma digit_chars_avoid (c0 : N) (ds : list N) :
  (c0 < 48 ∨ 57 < c0)%N → Forall (fun d => (d < 10)%N) ds →
  Forall (fun c => c ≠ c0) (digit_char <$> ds).
Proof.
  intros Hc Hds. apply Forall_fmap. eapply Forall_impl; [exact Hds|].
  intros d Hd. simpl. pose proof (digit_char_bounds d Hd). lia.
Qed.

(** Deleting every ['+'] of a numeral removes the leading one. *)
Lemma replace_plus_numeral (plus : bool) (sg : sign_style) (ds : list N) :
  Forall (fun d => (d < 10)%N) ds →
  replace (py "+") [] (numeral plus sg ds)
    = (sign_str sg ++ (digit_char <$> ds))%list.
Proof.
  intros Hds. unfold replace, numeral.
  assert (Forall (fun c => c ≠ 43%N) (sign_str sg ++ (digit_char <$> ds))) as Hno.
  { apply Forall_app. split; [|apply digit_chars_avoid; [lia|done]].
    destruct sg; repeat constructor; done. }
  change (py "+") with [43%N].
  destruct plus.
  - change ([43%N] ++ ?l)%list with (43%N :: l).
    cbn [replace_from]. rewrite bool_decide_eq_true_2 by done.
    cbn [length Nat.sub app]. by apply replace_from_absent.
  - cbn [app]. by apply replace_from_absent.
Qed.


Lemma to_ascii_ascii (s : str) :
  Forall (fun c => (c < 128)%N) s → to_ascii rt <$> s = s.
Proof.
  induction 1 as [|c s Hc Hs IH]; [done|]. rewrite fmap_cons, IH.
  unfold to_ascii. by destruct (N.ltb_spec c 128); [|lia].
Qed.

Lemma is_digit_digit_char (d : N) : (d < 10)%N → is_digit (digit_char d) = true.
Proof.
  intros Hd. pose proof (digit_char_bounds d Hd) as [? ?]. unfold is_digit.
  apply andb_true_intro. split; by apply N.leb_le.
Qed.

Lemma is_space_digit_char (d : N) : (d < 10)%N → is_space (digit_char d) = false.
Proof.
  intros Hd. pose proof (digit_char_bounds d Hd) as [? ?]. unfold is_space.
  apply orb_false_intro; [apply andb_false_intro2|]; [apply N.leb_gt|apply N.eqb_neq]; lia.
Qed.






End FormatOdds.


(** * Further properties of the code *)

(** ** The cache of the odds service *)

Section ServiceCache.
Import OddsApiService.

Lemma set_cached_fields (self : service) (t : Z) (k : string) (d : response) :
  api_key (_set_cached_data self t k d) = api_key self
  ∧ cache_duration (_set_cached_data self t k d) = cache_duration self
  ∧ cache (_set_cached_data self t k d) = <[k := (d, t)]> (cache self).
Proof. done. Qed.

(** What a call does to the service: nothing, or one store under the
    derived key. *)
Lemma get_nfl_odds_state (self : service) (w : world)
    (markets sportsbooks : option (list string)) (regions : string) :
  (get_nfl_odds self w markets sportsbooks regions).2 = self
  ∨ ∃ data,
      session_get w odds_url
        (build_params self (default_markets markets) sportsbooks regions)
        = Reply data
      ∧ (get_nfl_odds self w markets sportsbooks regions).1
        = OddsResult (_transform_odds_data (utcnow_iso w) data
                        (default_markets markets))
      ∧ (get_nfl_odds self w markets sportsbooks regions).2
        = _set_cached_data self (now_store w)
            (derived_cache_key markets sportsbooks regions)
            (_transform_odds_data (utcnow_iso w) data (default_markets markets)).
Proof.
  unfold get_nfl_odds, fetch_and_store, derived_cache_key.
  destruct (no_key self); [by left|].
  destruct (_get_cached_data _ _ _); [by left|].
  destruct (session_get w _ _) as [data|e] eqn:Hr; [|by left].
  right. by exists data.
Qed.

(** X1. A lookup after a store under the same key returns the stored
    response while the entry is younger than the cache duration and
    nothing from then on; a lookup under another key is not affected by
    the store; and a second store under a key replaces the first. *)
Theorem cache_store_then_lookup (self : service) (t0 t1 t2 : Z)
    (k k' : string) (d0 d : response) :
  _get_cached_data (_set_cached_data self t1 k d) t2 k
    = (if (t2 - t1 <? cache_duration self * 1000000)%Z then Some d else None)
  ∧ (k ≠ k' →
     _get_cached_data (_set_cached_data self t1 k d) t2 k'
       = _get_cached_data self t2 k')
  ∧ _set_cached_data (_set_cached_data self t0 k d0) t1 k d
    = _set_cached_data self t1 k d.
Proof.
  split_and!.
  - apply get_cached_after_set.
  - intros Hk. unfold _get_cached_data, _set_cached_data.
    cbn [cache cache_duration]. by rewrite lookup_insert_ne.
  - unfold _set_cached_data. cbn [cache cache_duration api_key].
    by rewrite insert_insert_eq.
Qed.

(** X2. A call of [get_nfl_odds] never changes the API key or the cache
    duration of the service, never touches a cache entry under a key other
    than the one derived from its arguments, and never removes an entry. *)
Theorem get_nfl_odds_frame (self : service) (w : world)
    (markets sportsbooks : option (list string)) (regions : string) :
  api_key (get_nfl_odds self w markets sportsbooks regions).2 = api_key self
  ∧ cache_duration (get_nfl_odds self w markets sportsbooks regions).2
    = cache_duration self
  ∧ (∀ k, k ≠ derived_cache_key markets sportsbooks regions →
       cache (get_nfl_odds self w markets sportsbooks regions).2 !! k
       = cache self !! k)
  ∧ (∀ k, is_Some (cache self !! k) →
       is_Some (cache (get_nfl_odds self w markets sportsbooks regions).2 !! k)).
Proof.
  destruct (get_nfl_odds_state self w markets sportsbooks regions)
    as [->|(data & _ & _ & ->)]; [done|].
  split_and!; try done.
  - intros k Hk. cbn [_set_cached_data cache]. by rewrite lookup_insert_ne.
  - intros k Hs. cbn [_set_cached_data cache].
    destruct (decide (derived_cache_key markets sportsbooks regions = k)) as [->|Hne].
    + rewrite lookup_insert_eq. by eexists.
    + by rewrite lookup_insert_ne.
Qed.

(** X3. When the service has no API key, or its cache holds a valid entry
    for the query, the upstream adapter is not consulted: the call gives
    the same result and the same service in any two surroundings that
    agree on the instant of the cache lookup. *)
Theorem adapter_not_consulted (self : service) (w w' : world)
    (markets sportsbooks : option (list string)) (regions : string) :
  no_key self = true
  ∨ is_Some (_get_cached_data self (now_lookup w)
               (derived_cache_key markets sportsbooks regions)) →
  now_lookup w' = now_lookup w →
  get_nfl_odds self w markets sportsbooks regions
    = get_nfl_odds self w' markets sportsbooks regions.
Proof.
  intros Hcase Ht. unfold get_nfl_odds, derived_cache_key in *. rewrite Ht.
  destruct (no_key self); [done|].
  destruct Hcase as [?|[d Hd]]; [done|]. by rewrite Hd.
Qed.

Lemma adapter_not_consulted_witness :
  get_nfl_odds warm_service failing_world (Some ["h2h"]) None "us"
    = get_nfl_odds warm_service
        (fixed_world (Reply [no_teams_event]) 0 5) (Some ["h2h"]) None "us".
Proof.
  apply (adapter_not_consulted warm_service failing_world
           (fixed_world (Reply [no_teams_event]) 0 5) (Some ["h2h"]) None "us").
  - right. vm_compute. by eexists.
  - reflexivity.
Defined.

(** X5. An entry as old as the cache duration or older counts as a miss:
    the call asks the adapter again and, on a reply, returns the newly
    transformed response and stores it over the old entry with the instant
    of the store. *)
Theorem stale_entry_is_refetched (self : service) (w : world)
    (markets sportsbooks : option (list string)) (regions : string)
    (old : response) (stamp : Z) (data : list raw_event) :
  no_key self = false →
  cache self !! derived_cache_key markets sportsbooks regions
    = Some (old, stamp) →
  (cache_duration self * 1000000 ≤ now_lookup w - stamp)%Z →
  session_get w odds_url
    (build_params self (default_markets markets) sportsbooks regions)
    = Reply data →
  get_nfl_odds self w markets sportsbooks regions
    = (OddsResult (_transform_odds_data (utcnow_iso w) data
                     (default_markets markets)),
       _set_cached_data self (now_store w)
         (derived_cache_key markets sportsbooks regions)
         (_transform_odds_data (utcnow_iso w) data (default_markets markets)))
  ∧ cache (get_nfl_odds self w markets sportsbooks regions).2
      !! derived_cache_key markets sportsbooks regions
    = Some (_transform_odds_data (utcnow_iso w) data (default_markets markets),
            now_store w).
Proof.
  intros Hk Hc Hold Hr.
  assert (get_nfl_odds self w markets sportsbooks regions
          = (OddsResult (_transform_odds_data (utcnow_iso w) data
                           (default_markets markets)),
             _set_cached_data self (now_store w)
               (derived_cache_key markets sportsbooks regions)
               (_transform_odds_data (utcnow_iso w) data
                  (default_markets markets)))) as ->.
  { unfold get_nfl_odds, fetch_and_store, _get_cached_data. rewrite Hk.
    unfold derived_cache_key in *. rewrite Hc.
    rewrite (proj2 (Z.ltb_ge _ _) Hold). by rewrite Hr. }
  split; [done|]. cbn [snd _set_cached_data cache]. by rewrite lookup_insert_eq.
Qed.

Lemma stale_entry_is_refetched_witness :
  get_nfl_odds warm_service
      (fixed_world (Reply [no_teams_event]) 300000000 300000001)
      (Some ["h2h"]) None "us"
    = (OddsResult (_transform_odds_data "2025-01-01T00:00:00"
                     [no_teams_event] ["h2h"]),
       _set_cached_data warm_service 300000001
         (derived_cache_key (Some ["h2h"]) None "us")
         (_transform_odds_data "2025-01-01T00:00:00" [no_teams_event] ["h2h"]))
  ∧ cache (get_nfl_odds warm_service
             (fixed_world (Reply [no_teams_event]) 300000000 300000001)
             (Some ["h2h"]) None "us").2
      !! derived_cache_key (Some ["h2h"]) None "us"
    = Some (_transform_odds_data "2025-01-01T00:00:00" [no_teams_event] ["h2h"],
            300000001%Z).
Proof.
  apply (stale_entry_is_refetched warm_service
           (fixed_world (Reply [no_teams_event]) 300000000 300000001)
           (Some ["h2h"]) None "us"
           (_transform_odds_data "2025-01-01T00:00:00" [good_event] ["h2h"]) 0).
  - reflexivity.
  - vm_compute. reflexivity.
  - vm_compute. discriminate.
  - reflexivity.
Defined.

(** X6. The cache keeps the invariant that every stored response counts
    its own games: a call on a service whose cache has it returns a
    service whose cache has it, and a response the call returns, fresh or
    cached, has a count equal to the length of its game list. The cache of
    a newly made service has the invariant. *)
Theorem cache_keeps_count_invariant (self : service) (w : world)
    (markets sportsbooks : option (list string)) (regions : string) :
  cache_consistent self →
  cache_consistent (get_nfl_odds self w markets sportsbooks regions).2
  ∧ (∀ r, (get_nfl_odds self w markets sportsbooks regions).1 = OddsResult r →
          count r = length (games r))
  ∧ (∀ a e, cache_consistent (__init__ a e)).
Proof.
  intros Hinv. split_and!.
  - destruct (get_nfl_odds_state self w markets sportsbooks regions)
      as [->|(data & _ & _ & ->)]; [done|].
    intros k d t. cbn [_set_cached_data cache].
    destruct (decide (derived_cache_key markets sportsbooks regions = k)) as [->|Hne].
    + rewrite lookup_insert_eq. by intros [= <- _].
    + rewrite lookup_insert_ne by done. apply Hinv.
  - unfold get_nfl_odds, fetch_and_store.
    destruct (no_key self); [done|].
    destruct (_get_cached_data _ _ _) as [c|] eqn:Hc.
    + intros r [= <-]. unfold _get_cached_data in Hc.
      destruct (cache self !! _) as [[d t]|] eqn:Hd; [|done].
      destruct (_ <? _)%Z; [|done]. injection Hc as <-. by eapply Hinv.
    + destruct (session_get w _ _); [|done]. by intros r [= <-].
  - intros a e k d t. unfold __init__. cbn [cache]. by rewrite lookup_empty.
Qed.

Lemma cache_keeps_count_invariant_witness :
  cache_consistent
    (get_nfl_odds fresh_service (fixed_world (Reply [good_event]) 0 0)
       (Some ["h2h"]) None "us").2
  ∧ (∀ r, (get_nfl_odds fresh_service (fixed_world (Reply [good_event]) 0 0)
             (Some ["h2h"]) None "us").1 = OddsResult r →
          count r = length (games r))
  ∧ (∀ a e, cache_consistent (__init__ a e)).
Proof.
  apply (cache_keeps_count_invariant fresh_service
           (fixed_world (Reply [good_event]) 0 0) (Some ["h2h"]) None "us").
  intros k d t. unfold fresh_service, __init__. cbn [cache].
  rewrite lookup_empty. discriminate.
Defined.

End ServiceCache.

(** ** More on the normaliser *)

Section NormaliserDetails.
Import OddsApiService.

(** The loop over the outcomes: all or nothing, and the last outcome of a
    name decides the entry of that name. *)
Lemma parse_outcomes_spec (l : list raw_outcome) (acc : market_data) :
  if forallb named l then
    ∃ m, parse_outcomes l acc = Ok m
         ∧ ∀ n, m !! n = match last_such (has_name n) l with
                         | Some o => Some (outcome_of o)
                         | None => acc !! n
                         end
  else parse_outcomes l acc = Raise KeyError.
Proof.
  revert acc. induction l as [|o l IH]; intros acc; cbn [forallb parse_outcomes].
  - by exists acc.
  - unfold named at 1. destruct (o_name o) as [| |s] eqn:Hn; cbn [andb index mbind result_bind rbind].
    + done.
    + specialize (IH (<[None := {| price := get (o_price o);
                                   point := get (o_point o) |}]> acc)).
      destruct (forallb named l); [|done].
      destruct IH as (m & -> & Hm). exists m. split; [done|].
      intros n. rewrite Hm. cbn [last_such].
      destruct (last_such (has_name n) l); [done|].
      unfold has_name. rewrite Hn. cbn [get].
      case_bool_decide as Hd.
      * subst n. by rewrite lookup_insert_eq.
      * by rewrite lookup_insert_ne.
    + specialize (IH (<[Some s := {| price := get (o_price o);
                                     point := get (o_point o) |}]> acc)).
      destruct (forallb named l); [|done].
      destruct IH as (m & -> & Hm). exists m. split; [done|].
      intros n. rewrite Hm. cbn [last_such].
      destruct (last_such (has_name n) l); [done|].
      unfold has_name. rewrite Hn. cbn [get].
      case_bool_decide as Hd.
      * subst n. by rewrite lookup_insert_eq.
      * by rewrite lookup_insert_ne.
Qed.

Lemma parse_market_known (market : raw_market) :
  known_market (get (m_key market)) = true →
  _parse_market market
    = (l ← iter (get_or_empty (m_outcomes market)); parse_outcomes l ∅).
Proof.
  unfold known_market, _parse_market. intros Hk.
  repeat case_decide; try done.
  all: rewrite !bool_decide_eq_false_2 in Hk by done; done.
Qed.

Lemma parse_market_unknown (market : raw_market) :
  known_market (get (m_key market)) = false → _parse_market market = Ok ∅.
Proof.
  unfold known_market, _parse_market. intros Hk.
  repeat case_decide; try done;
    rewrite ?orb_false_iff in Hk; destruct_and?;
    by rewrite bool_decide_eq_true_2 in *.
Qed.

Lemma parse_market_ok (market : raw_market) :
  if market_ok market then ∃ m, _parse_market market = Ok m
  else ∃ e, _parse_market market = Raise e.
Proof.
  unfold market_ok.
  destruct (known_market (get (m_key market))) eqn:Hk.
  - rewrite parse_market_known by done.
    destruct (m_outcomes market) as [| |l]; cbn; [by eexists..|].
    pose proof (parse_outcomes_spec l ∅) as H.
    destruct (forallb named l).
    + destruct H as (m & -> & _). by eexists.
    + rewrite H. by eexists.
  - rewrite parse_market_unknown by done. by eexists.
Qed.

(** X8. [_parse_market] fails exactly when the market key is one of h2h,
    spreads and totals and the outcomes are [null] ([TypeError]) or one of
    them has no [name] key ([KeyError]). A market with any other key, or
    without a key, yields the empty dictionary whatever its outcomes are,
    and a known market without an [outcomes] key yields it too. *)
Theorem parse_market_failures (market : raw_market) :
  ((∃ m, _parse_market market = Ok m) ↔ market_ok market = true)
  ∧ (known_market (get (m_key market)) = false → _parse_market market = Ok ∅)
  ∧ (known_market (get (m_key market)) = true →
     (m_outcomes market = Absent → _parse_market market = Ok ∅)
     ∧ (m_outcomes market = Null → _parse_market market = Raise TypeError)
     ∧ (∀ l, m_outcomes market = Present l → forallb named l = false →
             _parse_market market = Raise KeyError)).
Proof.
  split_and!.
  - pose proof (parse_market_ok market) as H.
    destruct (market_ok market); [done|].
    destruct H as [e He]. split; [|done]. intros [m Hm]. congruence.
  - apply parse_market_unknown.
  - intros Hk. rewrite parse_market_known by done. split_and!.
    + by intros ->.
    + by intros ->.
    + intros l -> Hl. cbn. pose proof (parse_outcomes_spec l ∅) as H.
      by rewrite Hl in H.
Qed.

(** X9. In the dictionary [_parse_market] returns for a known market, the
    entry of a name is the price and point of the last outcome of the
    market that carries the name, and a name no outcome carries has no
    entry. *)
Theorem parse_market_last_outcome_wins (market : raw_market)
    (m : market_data) (n : option string) :
  known_market (get (m_key market)) = true →
  _parse_market market = Ok m →
  m !! n = outcome_of <$> last_such (has_name n) (elements_of (m_outcomes market)).
Proof.
  intros Hk. rewrite parse_market_known by done. unfold elements_of.
  destruct (m_outcomes market) as [| |l]; cbn.
  - by intros [= <-].
  - done.
  - pose proof (parse_outcomes_spec l ∅) as H.
    destruct (forallb named l).
    + destruct H as (m' & -> & Hm). intros [= <-]. rewrite Hm.
      by destruct (last_such (has_name n) l).
    + by rewrite H.
Qed.

Lemma parse_market_last_outcome_wins_witness :
  ({[ Some "Chiefs" := {| price := Some (-135)%Z; point := None |} ]}
     : market_data) !! Some "Chiefs"
  = outcome_of <$> last_such (has_name (Some "Chiefs"))
                     (elements_of (m_outcomes chiefs_twice_market)).
Proof.
  apply (parse_market_last_outcome_wins chiefs_twice_market).
  - reflexivity.
  - vm_compute. reflexivity.
Defined.

(** The loop over the markets: all or nothing, and the last market of a
    key decides the entry of that key. *)
Lemma parse_markets_spec (ms : list raw_market)
    (acc : gmap (option string) market_data) :
  if forallb market_ok ms then
    ∃ m, parse_markets ms acc = Ok m
         ∧ ∀ k, m !! k = match last_such (has_key k) ms with
                         | Some mk =>
                             match _parse_market mk with
                             | Ok v => Some v
                             | Raise _ => None
                             end
                         | None => acc !! k
                         end
  else ∃ e, parse_markets ms acc = Raise e.
Proof.
  revert acc. induction ms as [|mk ms IH]; intros acc; cbn [forallb parse_markets].
  - by exists acc.
  - pose proof (parse_market_ok mk) as Hmk.
    destruct (market_ok mk); cbn [andb].
    + destruct Hmk as [v Hv]. rewrite Hv. cbn.
      specialize (IH (<[get (m_key mk) := v]> acc)).
      destruct (forallb market_ok ms); [|done].
      destruct IH as (m & -> & Hm). exists m. split; [done|].
      intros k. rewrite Hm. cbn [last_such].
      destruct (last_such (has_key k) ms); [done|].
      unfold has_key. case_bool_decide as Hd.
      * subst k. by rewrite lookup_insert_eq, Hv.
      * by rewrite lookup_insert_ne.
    + destruct Hmk as [e ->]. by exists e.
Qed.

Lemma transform_bookmaker_spec (b : raw_bookmaker) :
  if bookmaker_ok b then
    ∃ bk, transform_bookmaker b = Ok bk
          ∧ key bk = get (b_key b) ∧ title bk = get (b_title b)
          ∧ last_update bk = get (b_last_update b)
          ∧ ∀ k, markets bk !! k
                 = match last_such (has_key k) (elements_of (b_markets b)) with
                   | Some mk =>
                       match _parse_market mk with
                       | Ok v => Some v
                       | Raise _ => None
                       end
                   | None => None
                   end
  else ∃ e, transform_bookmaker b = Raise e.
Proof.
  unfold bookmaker_ok, transform_bookmaker, elements_of.
  destruct (b_markets b) as [| |ms]; cbn.
  - eexists. split_and!; try done.
  - by eexists.
  - pose proof (parse_markets_spec ms ∅) as H.
    destruct (forallb market_ok ms).
    + destruct H as (m & -> & Hm). cbn. eexists. split_and!; try done.
      all: intros k; cbn; rewrite Hm; by destruct (last_such (has_key k) ms).
    + destruct H as [e ->]. by exists e.
Qed.

(** The loop over the bookmakers: all or nothing, one entry per
    bookmaker, in order. *)
Lemma transform_bookmakers_spec (bs : list raw_bookmaker) (acc : list book_data) :
  if forallb bookmaker_ok bs then
    ∃ l, transform_bookmakers bs acc = Ok (acc ++ l)%list
         ∧ Forall2 (fun rb bk => transform_bookmaker rb = Ok bk) bs l
  else ∃ e, transform_bookmakers bs acc = Raise e.
Proof.
  revert acc. induction bs as [|b bs IH]; intros acc;
    cbn [forallb transform_bookmakers].
  - exists []. by rewrite app_nil_r.
  - pose proof (transform_bookmaker_spec b) as Hb.
    destruct (bookmaker_ok b); cbn [andb].
    + destruct Hb as (bk & Hbk & _). rewrite Hbk. cbn.
      specialize (IH (acc ++ [bk])%list).
      destruct (forallb bookmaker_ok bs); [|done].
      destruct IH as (l & -> & Hl). exists (bk :: l).
      split; [by rewrite <- app_assoc|]. by constructor.
    + destruct Hb as [e ->]. by exists e.
Qed.

Lemma transform_event_spec (event : raw_event) :
  if event_ok event then
    ∃ g, transform_event event = Ok g
         ∧ Forall2 (fun rb bk => transform_bookmaker rb = Ok bk)
             (elements_of (e_bookmakers event)) (bookmakers g)
  else ∃ e, transform_event event = Raise e.
Proof.
  unfold event_ok, transform_event, elements_of.
  destruct (e_bookmakers event) as [| |bs]; cbn.
  - eexists. split; [done|]. constructor.
  - by eexists.
  - pose proof (transform_bookmakers_spec bs []) as H.
    destruct (forallb bookmaker_ok bs).
    + destruct H as (l & -> & Hl). cbn. by eexists.
    + destruct H as [e ->]. by exists e.
Qed.

(** X10. An event is kept exactly when the iteration over its bookmakers,
    their markets and the outcomes of their known markets meets no [null]
    list and no outcome without a [name] key; the count of a transformed
    batch is the number of such events, and it equals the size of the
    batch exactly when every event of the batch is such an event. *)
Theorem kept_events_are_the_iterable_ones (utcnow : string)
    (data : list raw_event) (markets : list string) :
  (∀ event, is_Some (transformed event) ↔ event_ok event = true)
  ∧ count (_transform_odds_data utcnow data markets)
    = length (filter (fun event => event_ok event = true) data)
  ∧ (count (_transform_odds_data utcnow data markets) = length data
     ↔ Forall (fun event => event_ok event = true) data).
Proof.
  assert (∀ event, is_Some (transformed event) ↔ event_ok event = true) as Hok.
  { intros event. unfold transformed.
    pose proof (transform_event_spec event) as H.
    destruct (event_ok event).
    - destruct H as (g & -> & _). split; [done|]. by eexists.
    - destruct H as [e ->]. split; [by intros [? ?]|done]. }
  assert (count (_transform_odds_data utcnow data markets)
          = length (filter (fun event => event_ok event = true) data)) as Hcount.
  { unfold _transform_odds_data, count. rewrite transform_events_omap, app_nil_l.
    induction data as [|event data IH]; [done|].
    cbn [omap list_omap]. rewrite filter_cons.
    specialize (Hok event).
    destruct (transformed event) as [g|]; case_decide as Hd; cbn [length].
    - by rewrite IH.
    - destruct Hd. apply Hok. by eexists.
    - apply Hok in Hd. by destruct Hd.
    - done. }
  split_and!; [done|done|]. rewrite Hcount.
  clear Hcount Hok. induction data as [|event data IH].
  - split; [constructor|done].
  - rewrite filter_cons. case_decide as Hd; cbn [length].
    + rewrite Forall_cons. split.
      * intros [= H]. split; [done|]. by apply IH.
      * intros [_ H]. f_equal. by apply IH.
    + split.
      * intros H. pose proof (length_filter (fun event => event_ok event = true) data).
        lia.
      * intros [H _]%Forall_cons. done.
Qed.

(** X28. In the markets dictionary of a normalised bookmaker the entry
    of a market key is what [_parse_market] returns for the last market of
    the raw bookmaker with that key, earlier markets of the key being
    overwritten; a key no market of the raw bookmaker has has no entry. *)
Theorem bookmaker_last_market_wins (rb : raw_bookmaker) (bk : book_data)
    (k : option string) :
  transform_bookmaker rb = Ok bk →
  match last_such (has_key k) (elements_of (b_markets rb)) with
  | Some mk => ∃ v, _parse_market mk = Ok v ∧ markets bk !! k = Some v
  | None => markets bk !! k = None
  end.
Proof.
  intros Hbk. pose proof (transform_bookmaker_spec rb) as Hs.
  destruct (bookmaker_ok rb) eqn:Hok; [|destruct Hs as [e He]; congruence].
  destruct Hs as (bk' & Hbk' & _ & _ & _ & Hm).
  rewrite Hbk in Hbk'. injection Hbk' as <-. rewrite (Hm k).
  destruct (last_such (has_key k) (elements_of (b_markets rb))) as [mk|] eqn:Hl;
    [|done].
  assert (mk ∈ elements_of (b_markets rb)) as Hin.
  { clear -Hl. induction (elements_of (b_markets rb)) as [|y l IH];
      cbn [last_such] in Hl; [done|].
    destruct (last_such (has_key k) l) as [z|].
    - injection Hl as ->. right. by apply IH.
    - destruct (has_key k y); [|done]. injection Hl as ->. by left. }
  assert (market_ok mk = true) as Hmk.
  { unfold bookmaker_ok, elements_of in *.
    destruct (b_markets rb) as [| |ms]; cbn in *; try done;
      try (by apply elem_of_nil in Hin).
    rewrite forallb_forall in Hok. apply Hok. by apply list_elem_of_In. }
  pose proof (parse_market_ok mk) as Hp. rewrite Hmk in Hp.
  destruct Hp as [v ->]. by exists v.
Qed.

Lemma bookmaker_last_market_wins_witness :
  ∃ bk, transform_bookmaker twice_quoted_book = Ok bk
        ∧ ∃ v, _parse_market chiefs_twice_market = Ok v
               ∧ markets bk !! Some "h2h" = Some v.
Proof.
  eexists. split; [vm_compute; reflexivity|].
  apply (bookmaker_last_market_wins twice_quoted_book _ (Some "h2h")).
  vm_compute. reflexivity.
Defined.

(** X11. The game of a kept event lists its bookmakers in the order of
    the event, one for each, with the key, title and last update of the
    raw bookmaker. *)
Theorem kept_event_keeps_bookmakers (event : raw_event) (g : game) :
  transformed event = Some g →
  Forall2 (fun rb bk =>
             transform_bookmaker rb = Ok bk
             ∧ key bk = get (b_key rb) ∧ title bk = get (b_title rb)
             ∧ last_update bk = get (b_last_update rb))
    (elements_of (e_bookmakers event)) (bookmakers g)
  ∧ length (bookmakers g) = length (elements_of (e_bookmakers event)).
Proof.
  unfold transformed. pose proof (transform_event_spec event) as H.
  destruct (event_ok event).
  - destruct H as (g' & -> & Hf). intros [= <-].
    split; [|symmetry; by eapply Forall2_length].
    eapply Forall2_impl; [exact Hf|]. intros rb bk Hbk. cbn beta in *.
    pose proof (transform_bookmaker_spec rb) as Hs.
    destruct (bookmaker_ok rb).
    + destruct Hs as (bk' & Hbk' & ? & ? & ? & _).
      rewrite Hbk in Hbk'. injection Hbk' as <-. done.
    + destruct Hs as [e He]. congruence.
  - destruct H as [e ->]. done.
Qed.

Lemma kept_event_keeps_bookmakers_witness :
  ∃ g, transformed good_event = Some g
       ∧ Forall2 (fun rb bk =>
                    transform_bookmaker rb = Ok bk
                    ∧ key bk = get (b_key rb) ∧ title bk = get (b_title rb)
                    ∧ last_update bk = get (b_last_update rb))
           (elements_of (e_bookmakers good_event)) (bookmakers g)
       ∧ length (bookmakers g) = length (elements_of (e_bookmakers good_event)).
Proof.
  eexists. split; [vm_compute; reflexivity|].
  apply (kept_event_keeps_bookmakers good_event). vm_compute. reflexivity.
Defined.

End NormaliserDetails.

(** ** The routes *)

Section Routes.
Import OddsApiService App.

Lemma split_nonempty (s : string) : split "," s ≠ [].
Proof.
  destruct s as [|c s]; cbn [split]; [done|].
  case_bool_decide; [done|]. by destruct (split "," s).
Qed.

Lemma join_split (s : string) : String.concat "," (split "," s) = s.
Proof.
  induction s as [|c s IH]; [done|]. cbn [split].
  pose proof (split_nonempty s) as Hne.
  case_bool_decide as Hc.
  - subst c. rewrite concat_cons.
    destruct (split "," s) as [|piece pieces]; [done|].
    cbn [joined_tail]. by rewrite IH.
  - destruct (split "," s) as [|piece pieces]; [done|].
    rewrite concat_cons, append_cons, <- concat_cons. by rewrite IH.
Qed.

Lemma split_pieces_comma_free (s : string) :
  Forall (fun piece => has_comma piece = false) (split "," s).
Proof.
  induction s as [|c s IH]; cbn [split]; [by repeat constructor|].
  case_bool_decide as Hc.
  - by constructor.
  - pose proof (split_nonempty s) as Hne.
    destruct (split "," s) as [|piece pieces]; [done|].
    apply Forall_cons in IH as [Hp Hps]. constructor; [|done].
    cbn [has_comma]. by rewrite bool_decide_eq_false_2, Hp.
Qed.

Lemma split_comma_free_prefix (a t : string) :
  has_comma a = false →
  split "," (a +:+ String "," t) = a :: split "," t.
Proof.
  induction a as [|c a IH]; intros Ha.
  - rewrite append_nil_l. cbn [split]. by rewrite bool_decide_eq_true_2.
  - cbn [has_comma] in Ha. apply orb_false_elim in Ha as [Hc Ha].
    rewrite append_cons. cbn [split]. rewrite Hc. by rewrite IH.
Qed.

Lemma split_comma_free (a : string) :
  has_comma a = false → split "," a = [a].
Proof.
  induction a as [|c a IH]; intros Ha; [done|].
  cbn [has_comma] in Ha. apply orb_false_elim in Ha as [Hc Ha].
  cbn [split]. rewrite Hc. by rewrite IH.
Qed.

(** X15. Splitting at the commas and joining with commas are inverse to
    each other: joining the pieces of any string gives the string back,
    the pieces are never none and hold no comma, and splitting the join of
    a non-empty list of comma-free names gives the list back. *)
Theorem split_and_join_are_inverse :
  (∀ s, String.concat "," (split "," s) = s)
  ∧ (∀ s, split "," s ≠ []
          ∧ Forall (fun piece => has_comma piece = false) (split "," s))
  ∧ (∀ l, l ≠ [] → Forall (fun m => has_comma m = false) l →
          split "," (String.concat "," l) = l).
Proof.
  split_and!.
  - apply join_split.
  - intros s. split; [apply split_nonempty|apply split_pieces_comma_free].
  - induction l as [|a l IH]; [done|]. intros _ [Ha Hl]%Forall_cons.
    rewrite concat_cons. destruct l as [|b l].
    + cbn [joined_tail]. rewrite append_nil_r. by apply split_comma_free.
    + cbn [joined_tail]. change ("," +:+ ?t) with (String "," t).
      rewrite split_comma_free_prefix by done. f_equal. by apply IH.
Qed.


Lemma find_game_spec (home away : option string) (gs : list game) :
  match find_game home away gs with
  | Some g =>
      ∃ i, gs !! i = Some g ∧ matches home away g = true
           ∧ ∀ j g', (j < i)%nat → gs !! j = Some g' →
                     matches home away g' = false
  | None => Forall (fun g => matches home away g = false) gs
  end.
Proof.
  induction gs as [|g gs IH]; cbn [find_game]; [constructor|].
  destruct (given home && bool_decide (home_team g = home)) eqn:Hh.
  { exists 0%nat. unfold matches. rewrite Hh. split_and!; try done. lia. }
  destruct (given away && bool_decide (away_team g = away)) eqn:Ha.
  { exists 0%nat. unfold matches. rewrite Hh, Ha. split_and!; try done. lia. }
  assert (matches home away g = false) as Hg by (unfold matches; by rewrite Hh, Ha).
  destruct (find_game home away gs) as [g1|].
  - destruct IH as (i & Hi & Hm & Hfirst). exists (S i). split_and!; try done.
    intros [|j] g' Hj Hg'; cbn in Hg'.
    + by injection Hg' as <-.
    + eapply Hfirst; [|done]. lia.
  - by constructor.
Qed.

(** X13. The search of [compare_odds] returns the first game of the list
    whose home team is the given home team or whose away team is the given
    away team, a parameter that is missing or empty matching no game; it
    finds nothing exactly when no game of the list matches, and so
    whenever neither parameter is given. *)
Theorem find_game_first_match (home away : option string) (gs : list game) :
  (∀ g, find_game home away gs = Some g →
        ∃ i, gs !! i = Some g ∧ matches home away g = true
             ∧ ∀ j g', (j < i)%nat → gs !! j = Some g' →
                       matches home away g' = false)
  ∧ (find_game home away gs = None
     ↔ Forall (fun g => matches home away g = false) gs)
  ∧ (given home = false → given away = false → find_game home away gs = None).
Proof.
  pose proof (find_game_spec home away gs) as H.
  assert (find_game home away gs = None
          ↔ Forall (fun g => matches home away g = false) gs) as Hnone.
  { destruct (find_game home away gs) as [g|]; [|done].
    destruct H as (i & Hi & Hm & _). split; [done|]. intros Hall.
    rewrite Forall_lookup in Hall. specialize (Hall _ _ Hi). cbn in Hall.
    congruence. }
  split_and!.
  - intros g Hg. by rewrite Hg in H.
  - done.
  - intros Hh Ha. apply Hnone. apply Forall_forall. intros g _.
    unfold matches. by rewrite Hh, Ha.
Qed.

(** X14. The route [/api/odds/compare] answers 400 with the result of the
    service exactly when the service reports an error, and so always when
    no API key is configured; when the service returns odds it answers 404
    exactly when no game matches the two parameters, and otherwise 200
    with the comparison of the first matching game. The service it leaves
    is the one the call of the service leaves. *)
Theorem compare_route_statuses (svc : service) (w : world)
    (home away : option string) :
  (compare_odds svc w home away).2
    = (OddsApiService.get_nfl_odds svc w None None "us").2
  ∧ (status (compare_odds svc w home away).1 = 400%Z
     ↔ ∃ msg gs, (OddsApiService.get_nfl_odds svc w None None "us").1
                 = ErrorResult msg gs)
  ∧ (no_key svc = true → status (compare_odds svc w home away).1 = 400%Z)
  ∧ (∀ r, (OddsApiService.get_nfl_odds svc w None None "us").1 = OddsResult r →
          (compare_odds svc w home away).1
          = match find_game home away (games r) with
            | Some g => {| status := 200;
                           payload := BodyComparison (_compare_bookmaker_odds g) |}
            | None => {| status := 404; payload := BodyNotFound home away |}
            end)
  ∧ (status (compare_odds svc w home away).1 = 404%Z
     ↔ ∃ r, (OddsApiService.get_nfl_odds svc w None None "us").1 = OddsResult r
            ∧ Forall (fun g => matches home away g = false) (games r)).
Proof.
  unfold compare_odds.
  assert (no_key svc = true →
          (OddsApiService.get_nfl_odds svc w None None "us").1
          = ErrorResult "No API key configured" []) as Hnk.
  { intros Hk. unfold OddsApiService.get_nfl_odds. by rewrite Hk. }
  destruct (OddsApiService.get_nfl_odds svc w None None "us")
    as [[msg gs|r] svc'] eqn:Hget; cbn [fst snd] in *.
  - split_and!; try done.
    + split; [by eexists _, _|done].
    + split; [done|]. by intros (r & [=] & _).
  - assert (find_game home away (games r) = None
            ↔ Forall (fun g => matches home away g = false) (games r)) as Hnone.
    { pose proof (find_game_spec home away (games r)) as H.
      destruct (find_game home away (games r)) as [g|]; [|done].
      destruct H as (i & Hi & Hm & _). split; [done|]. intros Hall.
      rewrite Forall_lookup in Hall. specialize (Hall _ _ Hi). cbn in Hall.
      congruence. }
    destruct (find_game home away (games r)) as [g|] eqn:Hf; cbn [fst snd status].
    + split_and!; try done.
      * split; [done|]. by intros (? & ? & [=]).
      * intros Hk. by specialize (Hnk Hk).
      * by intros r' [= <-]; rewrite Hf.
      * split; [done|]. intros (r' & [= <-] & Hall).
        apply Hnone in Hall. congruence.
    + split_and!; try done.
      * split; [done|]. by intros (? & ? & [=]).
      * intros Hk. by specialize (Hnk Hk).
      * by intros r' [= <-]; rewrite Hf.
      * split; [|done]. intros _. exists r. split; [done|]. by apply Hnone.
Qed.

(** X7. The health route and the service of the module agree on the
    configuration: the route reports the API as configured exactly when
    the service made from the same environment has a key, and it reports
    it as not configured exactly when every fetch of that service returns
    the error ["No API key configured"] with an empty game list. *)
Theorem health_agrees_with_service (env_key : option string) :
  api_configured (health_check env_key)
    = negb (no_key (odds_api_service env_key))
  ∧ (api_configured (health_check env_key) = false
     ↔ ∀ w markets sportsbooks regions,
         (OddsApiService.get_nfl_odds (odds_api_service env_key) w
            markets sportsbooks regions).1
         = ErrorResult "No API key configured" []).
Proof.
  assert (api_configured (health_check env_key)
          = negb (no_key (odds_api_service env_key))) as Heq.
  { unfold health_check, odds_api_service, __init__, no_key, given.
    cbn [api_configured api_key py_or]. destruct env_key as [s|]; [|done].
    by case_bool_decide. }
  split; [done|]. rewrite Heq. split.
  - intros Hk%negb_false_iff w markets sportsbooks regions.
    unfold OddsApiService.get_nfl_odds. by rewrite Hk.
  - intros Hall. apply negb_false_iff.
    specialize (Hall (fixed_world (Reply []) 0 0) None None "us").
    unfold OddsApiService.get_nfl_odds in Hall.
    destruct (no_key (odds_api_service env_key)); [done|].
    assert (cache (odds_api_service env_key) = ∅) as Hc by done.
    unfold _get_cached_data in Hall. rewrite Hc, lookup_empty in Hall.
    cbn in Hall. discriminate.
Qed.

End Routes.

(** ** More on the comparison engine *)

Section ComparisonDetails.
Import OddsApiService App.

Lemma last_such_elem {A : Type} (p : A -> bool) (l : list A) (x : A) :
  last_such p l = Some x → x ∈ l ∧ p x = true.
Proof.
  induction l as [|y l IH]; cbn [last_such]; [done|].
  destruct (last_such p l) as [z|].
  - intros [= ->]. destruct (IH eq_refl) as [Hin Hp]. split; [by right|done].
  - destruct (p y) eqn:Hy; [|done]. intros [= ->]. split; [by left|done].
Qed.

(** X12. The moneyline price the comparison engine reads for a team from
    a normalised bookmaker is the price of the last outcome that carries
    the team's name in the last h2h market of the raw bookmaker; there is
    none when the bookmaker has no h2h market or that market has no such
    outcome or the outcome has no price. *)
Theorem engine_reads_last_quote (rb : raw_bookmaker) (bk : book_data)
    (team : option string) :
  transform_bookmaker rb = Ok bk →
  quoted_price team bk
    = (mk ← last_such (has_key (Some "h2h")) (elements_of (b_markets rb));
       o ← last_such (has_name team) (elements_of (m_outcomes mk));
       get (o_price o)).
Proof.
  intros Hbk. pose proof (transform_bookmaker_spec rb) as Hs.
  destruct (bookmaker_ok rb) eqn:Hok; [|destruct Hs as [e He]; congruence].
  destruct Hs as (bk' & Hbk' & _ & _ & _ & Hm).
  rewrite Hbk in Hbk'. injection Hbk' as <-.
  unfold quoted_price. rewrite (Hm (Some "h2h")).
  destruct (last_such (has_key (Some "h2h")) (elements_of (b_markets rb)))
    as [mk|] eqn:Hlast; cbn; [|done].
  apply last_such_elem in Hlast as [Hin Hkey].
  unfold has_key in Hkey. apply bool_decide_eq_true in Hkey.
  assert (market_ok mk = true) as Hmk.
  { unfold bookmaker_ok, elements_of in *.
    destruct (b_markets rb) as [| |ms]; cbn in *; try done.
    - by apply elem_of_nil in Hin.
    - rewrite forallb_forall in Hok. apply Hok. by apply list_elem_of_In. }
  assert (known_market (get (m_key mk)) = true) as Hk by by rewrite Hkey.
  unfold market_ok in Hmk. rewrite Hk in Hmk.
  rewrite parse_market_known by done. unfold elements_of.
  destruct (m_outcomes mk) as [| |l]; cbn in *; try done.
  pose proof (parse_outcomes_spec l ∅) as Hp. rewrite Hmk in Hp.
  destruct Hp as (m & -> & Hl). cbn. rewrite Hl.
  by destruct (last_such (has_name team) l).
Qed.

Lemma engine_reads_last_quote_witness :
  ∃ bk, transform_bookmaker twice_quoted_book = Ok bk
        ∧ quoted_price (Some "Chiefs") bk = Some (-135)%Z.
Proof.
  eexists. split; [vm_compute; reflexivity|].
  rewrite (engine_reads_last_quote twice_quoted_book _ (Some "Chiefs")).
  - reflexivity.
  - vm_compute. reflexivity.
Defined.

Lemma side_team_with_bookmakers (g : game) (l : list book_data) (s : side) :
  side_team s (with_bookmakers g l) = side_team s g.
Proof. by destruct s. Qed.

Lemma slot_after_one_more (g : game) (bk : book_data) (s : side) :
  moneyline_slot s
    (best_odds (_compare_bookmaker_odds
                  (with_bookmakers g (bookmakers g ++ [bk]))))
  = update_side (side_team s g) bk
      (moneyline_slot s (best_odds (_compare_bookmaker_odds g))).
Proof.
  unfold _compare_bookmaker_odds. cbn [best_odds with_bookmakers bookmakers].
  rewrite !moneyline_slot_fold, fold_left_app. by destruct s.
Qed.

(** X17. One more bookmaker at the end of the sequence never lowers the
    best price of a moneyline side and never empties the slot: the slot
    stays as it is, or it takes the title and the set price of the new
    bookmaker, and it does so only when that price is larger than the best
    one so far or there was none. *)
Theorem one_more_bookmaker_never_lowers (g : game) (bk : book_data) (s : side) :
  match moneyline_slot s (best_odds (_compare_bookmaker_odds g)),
        moneyline_slot s
          (best_odds (_compare_bookmaker_odds
                        (with_bookmakers g (bookmakers g ++ [bk])))) with
  | Some e, Some e' =>
      (best_price e ≤ best_price e')%Z
      ∧ (e' = e
         ∨ (bookmaker e' = title bk
            ∧ set_price (side_team s g) bk = Some (best_price e')
            ∧ (best_price e < best_price e')%Z))
  | Some _, None => False
  | None, Some e' =>
      bookmaker e' = title bk
      ∧ set_price (side_team s g) bk = Some (best_price e')
  | None, None => set_price (side_team s g) bk = None
  end.
Proof.
  rewrite slot_after_one_more, update_side_set_price.
  destruct (moneyline_slot s (best_odds (_compare_bookmaker_odds g))) as [e|],
    (set_price (side_team s g) bk) as [p|]; try done.
  - destruct (Z.ltb_spec (best_price e) p); cbn.
    + split; [lia|]. right. done.
    + split; [lia|]. by left.
  - split; [lia|]. by left.
Qed.

(** The best price of a slot through membership: a set price of some
    bookmaker that no set price exceeds. *)
Lemma slot_price_spec (g : game) (s : side) :
  match moneyline_slot s (best_odds (_compare_bookmaker_odds g)) with
  | Some e =>
      (∃ bk, bk ∈ bookmakers g ∧ set_price (side_team s g) bk = Some (best_price e))
      ∧ ∀ bk p, bk ∈ bookmakers g → set_price (side_team s g) bk = Some p →
                (p ≤ best_price e)%Z
  | None => ∀ bk, bk ∈ bookmakers g → set_price (side_team s g) bk = None
  end.
Proof.
  pose proof (found_compare g s) as Hf.
  destruct (moneyline_slot s _) as [e|]; cbn in Hf.
  - destruct Hf as (i & bi & Hi & _ & Hs & Hmax & _). split.
    + exists bi. split; [|done]. apply list_elem_of_lookup. by exists i.
    + intros bk p [j Hj]%list_elem_of_lookup Hp. by eapply Hmax.
  - intros bk [j Hj]%list_elem_of_lookup. by eapply Hf.
Qed.

(** X18. The best price of a moneyline side does not depend on the order
    of the bookmakers: for a rearranged sequence the slot is null when it
    was null and holds the same price otherwise (the bookmaker named can
    differ when several have set that price). *)
Theorem best_price_ignores_order (g : game) (l : list book_data) (s : side) :
  bookmakers g ≡ₚ l →
  best_price <$> moneyline_slot s
                   (best_odds (_compare_bookmaker_odds (with_bookmakers g l)))
  = best_price <$> moneyline_slot s (best_odds (_compare_bookmaker_odds g)).
Proof.
  intros Hperm.
  pose proof (slot_price_spec g s) as H1.
  pose proof (slot_price_spec (with_bookmakers g l) s) as H2.
  rewrite side_team_with_bookmakers in H2. cbn [with_bookmakers bookmakers] in H2.
  destruct (moneyline_slot s (best_odds (_compare_bookmaker_odds g))) as [e|],
    (moneyline_slot s (best_odds (_compare_bookmaker_odds (with_bookmakers g l))))
    as [e'|]; cbn.
  - destruct H1 as [(b1 & Hin1 & Hs1) Hmax1], H2 as [(b2 & Hin2 & Hs2) Hmax2].
    rewrite Hperm in Hin1. rewrite <- Hperm in Hin2.
    specialize (Hmax1 _ _ Hin2 Hs2). specialize (Hmax2 _ _ Hin1 Hs1).
    f_equal. lia.
  - destruct H1 as [(b1 & Hin1 & Hs1) _]. rewrite Hperm in Hin1.
    by rewrite (H2 _ Hin1) in Hs1.
  - destruct H2 as [(b2 & Hin2 & Hs2) _]. rewrite <- Hperm in Hin2.
    by rewrite (H1 _ Hin2) in Hs2.
  - done.
Qed.

Lemma best_price_ignores_order_witness :
  best_price <$> moneyline_slot Home
                   (best_odds (_compare_bookmaker_odds
                                 (with_bookmakers tie_game
                                    (reverse (bookmakers tie_game)))))
  = best_price <$> moneyline_slot Home
                     (best_odds (_compare_bookmaker_odds tie_game)).
Proof.
  apply (best_price_ignores_order tie_game (reverse (bookmakers tie_game)) Home).
  symmetry. apply reverse_Permutation.
Defined.

End ComparisonDetails.

(** ** The scrapers *)

Section Scrapers.
Import BaseScraper.
Context {soup G : Type}.

Implicit Types (self : scraper G) (fetch : string -> result soup)
  (parse : soup -> result (list G)).

Lemma scraper_get_after_set self (t1 t2 : Q) (k : string) (d : list G) :
  get_cached_data (set_cached_data self t1 k d) t2 k
    = if Qltb (t2 - t1) (inject_Z (cache_duration self)) then Some d else None.
Proof.
  unfold get_cached_data, set_cached_data. cbn [cache cache_duration].
  by rewrite lookup_insert_eq.
Qed.

Lemma scrape_on_miss (NFL_URL : string) parse self fetch (t ts : Q) :
  nothing_to_serve self t = true →
  scrape_nfl_games NFL_URL parse self fetch t ts
    = match scrape_and_store NFL_URL parse self fetch ts with
      | Ok r => r
      | Raise _ => ([], self)
      end.
Proof.
  unfold nothing_to_serve, scrape_nfl_games.
  by destruct (get_cached_data self t "nfl_games") as [[|g gs]|].
Qed.



(** X26. An empty list of games is stored and never handed out: when a
    scrape has found no game on the page, it returns the empty list and
    stores it, and the next scrape reads the page again however soon it
    comes, returning and storing what the page gives then. *)
Theorem empty_scrape_is_never_reused (NFL_URL : string) parse self fetch
    (t1 ts1 : Q) (page : soup) :
  nothing_to_serve self t1 = true →
  fetch NFL_URL = Ok page →
  parse page = Ok [] →
  scrape_nfl_games NFL_URL parse self fetch t1 ts1
    = ([], set_cached_data self ts1 "nfl_games" [])
  ∧ cache (set_cached_data self ts1 "nfl_games" []) !! "nfl_games"
    = Some ([], ts1)
  ∧ ∀ parse' fetch' (t2 ts2 : Q) (page' : soup) (games' : list G),
      fetch' NFL_URL = Ok page' →
      parse' page' = Ok games' →
      scrape_nfl_games NFL_URL parse'
        (set_cached_data self ts1 "nfl_games" []) fetch' t2 ts2
      = (games',
         set_cached_data (set_cached_data self ts1 "nfl_games" [])
           ts2 "nfl_games" games').
Proof.
  intros Hmiss Hf Hp. split_and!.
  - rewrite scrape_on_miss by done.
    unfold scrape_and_store, get_page. rewrite Hf. cbn. by rewrite Hp.
  - cbn [set_cached_data cache]. by rewrite lookup_insert_eq.
  - intros parse' fetch' t2 ts2 page' games' Hf' Hp'.
    rewrite scrape_on_miss.
    + unfold scrape_and_store, get_page. rewrite Hf'. cbn. by rewrite Hp'.
    + unfold nothing_to_serve. rewrite scraper_get_after_set.
      by destruct (Qltb _ _).
Qed.

(** X27. A scrape that has nothing to hand out from the cache and fails,
    because the page source raises an exception of any kind or because
    the page reader raises one, returns the empty list and leaves the
    scraper, with its cache, as it is. *)
Theorem failed_scrape_is_not_cached (NFL_URL : string) parse self fetch
    (t ts : Q) :
  nothing_to_serve self t = true →
  (∃ e, fetch NFL_URL = Raise e)
  ∨ (∃ page e, fetch NFL_URL = Ok page ∧ parse page = Raise e) →
  scrape_nfl_games NFL_URL parse self fetch t ts = ([], self).
Proof.
  intros Hmiss Hfail. rewrite scrape_on_miss by done.
  unfold scrape_and_store, get_page.
  destruct Hfail as [[e ->]|(page & e & -> & Hp)].
  - by destruct e.
  - cbn. by rewrite Hp.
Qed.

End Scrapers.


Lemma empty_scrape_is_never_reused_witness :
  BaseScraper.scrape_nfl_games "https://sportsbook.fanduel.com/navigation/nfl"
      BaseScraper.page_of_none BaseScraper.new_scraper
      (BaseScraper.serve "") 0%Q 1%Q
    = ([], BaseScraper.set_cached_data BaseScraper.new_scraper 1%Q "nfl_games" [])
  ∧ BaseScraper.cache
      (BaseScraper.set_cached_data (G:=string) BaseScraper.new_scraper 1%Q
         "nfl_games" [])
      !! "nfl_games" = Some ([], 1%Q)
  ∧ ∀ (parse' : string -> result (list string))
      (fetch' : string -> result string) (t2 ts2 : Q) (page' : string)
      (games' : list string),
      fetch' "https://sportsbook.fanduel.com/navigation/nfl" = Ok page' →
      parse' page' = Ok games' →
      BaseScraper.scrape_nfl_games
        "https://sportsbook.fanduel.com/navigation/nfl" parse'
        (BaseScraper.set_cached_data BaseScraper.new_scraper 1%Q "nfl_games" [])
        fetch' t2 ts2
      = (games',
         BaseScraper.set_cached_data
           (BaseScraper.set_cached_data BaseScraper.new_scraper 1%Q "nfl_games" [])
           ts2 "nfl_games" games').
Proof.
  apply (empty_scrape_is_never_reused
           "https://sportsbook.fanduel.com/navigation/nfl"
           BaseScraper.page_of_none BaseScraper.new_scraper
           (BaseScraper.serve "") 0%Q 1%Q "").
  - reflexivity.
  - reflexivity.
  - reflexivity.
Defined.

Lemma failed_scrape_is_not_cached_witness :
  BaseScraper.scrape_nfl_games "https://sportsbook.fanduel.com/navigation/nfl"
      BaseScraper.page_of_one (BaseScraper.new_scraper (G:=string))
      BaseScraper.time_out 0%Q 1%Q
    = ([], BaseScraper.new_scraper).
Proof.
  apply (failed_scrape_is_not_cached
           "https://sportsbook.fanduel.com/navigation/nfl"
           BaseScraper.page_of_one BaseScraper.new_scraper
           BaseScraper.time_out 0%Q 1%Q).
  - reflexivity.
  - left. eexists. reflexivity.
Defined.

Lemma cached_response_is_reused_witness :
  ∃ res self1,
    OddsApiService.get_nfl_odds OddsApiService.fresh_service
      (OddsApiService.fixed_world
         (OddsApiService.Reply [OddsApiService.good_event]) 0 0)
      (Some ["h2h"]) (Some ["draftkings"]) "us"
    = (OddsApiService.OddsResult res, self1)
    ∧ OddsApiService.get_nfl_odds self1 OddsApiService.failing_world
        (Some ["h2h"]) (Some ["fanduel"]) "us"
      = (OddsApiService.OddsResult res, self1).
Proof.
  apply (cached_response_is_reused OddsApiService.fresh_service
           (OddsApiService.fixed_world
              (OddsApiService.Reply [OddsApiService.good_event]) 0 0)
           OddsApiService.failing_world
           (Some ["h2h"]) (Some ["draftkings"]) (Some ["fanduel"]) "us" "us"
           [OddsApiService.good_event]).
  - reflexivity.
  - reflexivity.
  - reflexivity.
  - reflexivity.
Defined.

(** ** More on the implied probability *)

Section ImpliedProbabilityDetails.
Import BaseScraper.









End ImpliedProbabilityDetails.

(** ** More on the odds-string parser *)

Section FormatOddsDetails.
Import BaseScraper.
Variable rt : runtime.

(** Deleting every ['+'] is filtering the ['+'] out. *)
Lemma replace_plus_filter (s : str) :
  replace (py "+") [] s = filter (fun c => c ≠ 43%N) s.
Proof.
  unfold replace. change (py "+") with [43%N].
  induction s as [|c s IH]; [done|]. cbn [replace_from length take].
  rewrite filter_cons. destruct (decide (c = 43%N)) as [->|Hc].
  - rewrite bool_decide_eq_true_2 by done. cbn [Nat.sub app].
    by rewrite decide_False by (by intros []).
  - rewrite bool_decide_eq_false_2 by (by intros [= ?]).
    rewrite decide_True by done. by rewrite IH.
Qed.

(** X19. The parser does not see a ['+'], wherever it stands: a string
    and the string without its ['+'] characters give the same result, and
    so do a string and the string with a ['+'] put in at any place. *)
Theorem format_odds_ignores_plus :
  (∀ s : str,
     format_odds rt (VStr s)
     = format_odds rt (VStr (filter (fun c => c ≠ 43%N) s)))
  ∧ (∀ s1 s2 : str,
       format_odds rt (VStr (s1 ++ 43%N :: s2))
       = format_odds rt (VStr (s1 ++ s2))).
Proof.
  assert (∀ s : str,
            format_odds rt (VStr s)
            = format_odds rt (VStr (filter (fun c => c ≠ 43%N) s))) as H.
  { intros s. unfold format_odds, format_odds_body.
    rewrite !replace_plus_filter.
    assert (filter (fun c => c ≠ 43%N) (filter (fun c => c ≠ 43%N) s)
            = filter (fun c => c ≠ 43%N) s) as ->; [|done].
    induction s as [|c s IH]; [done|]. rewrite filter_cons.
    case_decide; [|done]. rewrite filter_cons, decide_True by done.
    by rewrite IH. }
  split; [done|]. intros s1 s2. rewrite H, (H (s1 ++ s2)%list).
  rewrite !filter_app, filter_cons. by rewrite decide_False by (by intros []).
Qed.

Lemma replace_from_prefix (c0 : N) (old' new pre s : str) :
  Forall (fun c => c ≠ c0) pre →
  replace_from (c0 :: old') new 0 (pre ++ s)
    = (pre ++ replace_from (c0 :: old') new 0 s)%list.
Proof.
  induction 1 as [|c pre Hc Hpre IH]; [done|].
  cbn [app replace_from]. rewrite bool_decide_eq_false_2.
  - by rewrite IH.
  - cbn [length take]. intros [= ? _]. done.
Qed.

Lemma spaces_avoid (c0 : N) (ws : str) :
  (13 < c0)%N → c0 ≠ 32%N → Forall (fun c => is_space c = true) ws →
  Forall (fun c => c ≠ c0) ws.
Proof.
  intros H1 H2 Hws. eapply Forall_impl; [exact Hws|].
  intros c Hc ->. unfold is_space in Hc.
  apply orb_true_iff in Hc as [[_ Hc%N.leb_le]%andb_true_iff|Hc%N.eqb_eq]; lia.
Qed.

Lemma spaces_ascii (ws : str) :
  Forall (fun c => is_space c = true) ws → Forall (fun c => (c < 128)%N) ws.
Proof.
  intros Hws. eapply Forall_impl; [exact Hws|].
  intros c Hc. unfold is_space in Hc.
  apply orb_true_iff in Hc as [[_ Hc%N.leb_le]%andb_true_iff|Hc%N.eqb_eq]; lia.
Qed.

Lemma skip_spaces_spaces (ws s : str) :
  Forall (fun c => is_space c = true) ws →
  skip_spaces (ws ++ s) = skip_spaces s.
Proof.
  induction 1 as [|c ws Hc Hws IH]; [done|]. cbn [app skip_spaces].
  by rewrite Hc.
Qed.

(** The digit loop stops at a blank. *)
Lemma scan_digits_until_space (ds : list N) (ws : str) (prev : N) (acc : Z)
    (n : N) :
  Forall (fun d => (d < 10)%N) ds → prev ≠ underscore →
  Forall (fun c => is_space c = true) ws →
  scan_digits ((digit_char <$> ds) ++ ws) prev acc n
    = Some (digits_value acc ds, (n + N.of_nat (length ds))%N, ws).
Proof.
  intros Hds Hprev Hws. revert prev acc n Hprev.
  induction Hds as [|d ds Hd Hds IH]; intros prev acc n Hprev.
  - cbn [fmap list_fmap app length digits_value fold_left].
    rewrite N.add_0_r. destruct Hws as [|c ws Hc Hws]; cbn [scan_digits].
    + by rewrite (proj2 (N.eqb_neq _ _) Hprev).
    + assert (is_digit c = false ∧ (c =? underscore)%N = false) as [-> ->].
      { unfold is_space in Hc. unfold is_digit, underscore.
        apply orb_true_iff in Hc as [[_ Hc%N.leb_le]%andb_true_iff|Hc%N.eqb_eq].
        - split; [apply andb_false_intro1; apply N.leb_gt|apply N.eqb_neq]; lia.
        - split; [apply andb_false_intro1; apply N.leb_gt|apply N.eqb_neq]; lia. }
      by rewrite (proj2 (N.eqb_neq _ _) Hprev).
  - rewrite fmap_cons. cbn [app scan_digits].
    rewrite is_digit_digit_char by done. rewrite IH.
    + replace (digit_char d - 48)%N with d by (unfold digit_char; lia).
      replace (n + 1 + N.of_nat (length ds))%N
        with (n + N.of_nat (length (d :: ds)))%N by (cbn [length]; lia).
      done.
    + pose proof (digit_char_bounds d Hd). unfold underscore. lia.
Qed.

(** X20. Blanks, tabs and line ends around a decimal numeral do not
    matter to the parser: with any run of them before and after, the
    numeral yields its integer. *)
Theorem format_odds_ignores_surrounding_space (ws1 ws2 : str) (plus : bool)
    (sg : sign_style) (ds : list N) :
  Forall (fun c => is_space c = true) ws1 →
  Forall (fun c => is_space c = true) ws2 →
  ds ≠ [] → Forall (fun d => (d < 10)%N) ds →
  too_many_digits rt (N.of_nat (length ds)) = false →
  format_odds rt (VStr (ws1 ++ numeral plus sg ds ++ ws2))
    = Ok (signed sg (digits_value 0 ds)).
Proof.
  intros Hws1 Hws2 Hne Hds Hlim.
  pose proof (digit_chars_avoid 226 ds ltac:(lia) Hds) as Hno226.
  pose proof (spaces_avoid 226 ws2 ltac:(lia) ltac:(lia) Hws2) as Hws226.
  unfold format_odds, format_odds_body.
  (* every '+' goes *)
  rewrite replace_plus_filter, !filter_app.
  rewrite <- (replace_plus_filter (numeral plus sg ds)).
  rewrite replace_plus_numeral by done.
  assert (∀ ws, Forall (fun c => is_space c = true) ws →
                filter (fun c => c ≠ 43%N) ws = ws) as Hfilter.
  { intros ws Hws. induction Hws as [|c ws Hc Hws IH]; [done|].
    rewrite filter_cons, IH. rewrite decide_True; [done|].
    intros ->. done. }
  rewrite !Hfilter by done.
  (* the glyph becomes '-' *)
  unfold replace. unfold minus_glyph at 1.
  rewrite replace_from_prefix
    by (apply spaces_avoid; [lia|lia|done]).
  assert (replace_from [226; 710; 8217]%N (py "-") 0
            ((sign_str sg ++ (digit_char <$> ds)) ++ ws2)
          = ((if match sg with Unsigned => false | _ => true end
              then [45%N] else [])
             ++ ((digit_char <$> ds) ++ ws2))%list) as ->.
  { change (py "-") with [45%N].
    assert (Forall (fun c => c ≠ 226%N) ((digit_char <$> ds) ++ ws2)) as Hrest
      by (apply Forall_app; done).
    destruct sg; cbn [sign_str].
    - rewrite app_nil_l. cbn [app]. by apply replace_from_absent.
    - change (py "-") with [45%N]. rewrite <- app_assoc. cbn [app replace_from].
      rewrite bool_decide_eq_false_2 by done. f_equal.
      by apply replace_from_absent.
    - unfold minus_glyph. rewrite <- app_assoc. cbn [app replace_from].
      rewrite bool_decide_eq_true_2 by done. cbn [length Nat.sub app].
      f_equal. by apply replace_from_absent. }
  (* int reads the rest *)
  destruct ds as [|d ds]; [done|].
  pose proof (Forall_inv Hds) as Hd. cbn beta in Hd.
  pose proof (digit_char_bounds d Hd) as [Hlo Hhi].
  assert (scan_digits ((digit_char <$> (d :: ds)) ++ ws2) 0 0 0
          = Some (digits_value 0 (d :: ds), N.of_nat (length (d :: ds)), ws2))
    as Hscan by (by rewrite scan_digits_until_space).
  assert (skip_spaces ws2 = []) as Hend.
  { rewrite <- (app_nil_r ws2). by rewrite skip_spaces_spaces. }
  unfold py_int. rewrite to_ascii_ascii.
  2:{ apply Forall_app. split; [by apply spaces_ascii|].
      apply Forall_app. split; [destruct sg; repeat constructor; done|].
      apply Forall_app. split; [|by apply spaces_ascii].
      apply Forall_fmap. eapply Forall_impl; [exact Hds|].
      intros x Hx. cbn. pose proof (digit_char_bounds x Hx). lia. }
  rewrite skip_spaces_spaces by done.
  rewrite fmap_cons in *.
  destruct sg; cbn [app skip_spaces signed].
  - rewrite is_space_digit_char by done.
    rewrite (proj2 (N.eqb_neq (digit_char d) 43)) by lia.
    rewrite (proj2 (N.eqb_neq (digit_char d) 45)) by lia.
    rewrite is_digit_digit_char by done. cbn [app] in Hscan.
    by rewrite Hscan, Hlim, Hend.
  - change (is_space 45) with false. cbv iota.
    change (45 =? 43)%N with false. change (45 =? 45)%N with true. cbv iota.
    rewrite is_digit_digit_char by done. cbn [app] in Hscan.
    by rewrite Hscan, Hlim, Hend.
  - change (is_space 45) with false. cbv iota.
    change (45 =? 43)%N with false. change (45 =? 45)%N with true. cbv iota.
    rewrite is_digit_digit_char by done. cbn [app] in Hscan.
    by rewrite Hscan, Hlim, Hend.
Qed.

End FormatOddsDetails.

Lemma format_odds_ignores_surrounding_space_witness :
  BaseScraper.format_odds BaseScraper.ascii_runtime
    (BaseScraper.VStr
       ([32; 9]%N ++ BaseScraper.numeral false BaseScraper.AsciiMinus [1; 1; 0]%N
          ++ [10]%N))
  = Ok (BaseScraper.signed BaseScraper.AsciiMinus
          (BaseScraper.digits_value 0 [1; 1; 0]%N)).
Proof.
  apply (format_odds_ignores_surrounding_space BaseScraper.ascii_runtime
           [32; 9]%N [10]%N false BaseScraper.AsciiMinus [1; 1; 0]%N).
  - repeat constructor.
  - repeat constructor.
  - discriminate.
  - repeat constructor.
  - reflexivity.
Defined.
